(** * A duplex WebSocket relay (browser <-> Gemini Live): model and properties

    The development embeds [app.py]: the [GeminiLiveSession] helper and the
    [/ws] endpoint with its two pumps.  Python values are modelled as follows:
    - [str] is [string]; a character is its code, so the characters above 127
      stand for the non-ASCII ones;
    - [bytes] is [list byte];
    - a decoded JSON document is a [json] tree, a [dict] an association list
      in insertion order;
    - an exception is a constructor of [exn], a call that may raise returns a
      [result];
    - every [await] is a suspension point: a coroutine is a program counter
      and the event loop is a list of completion events, in any order the
      coroutines can take them.

    What [app.py] calls in the standard library is modelled after CPython:
    [json.dumps] with its default settings, [base64.b64encode] and the lenient
    decoder behind [base64.b64decode].  [json.loads] is a parameter of the
    development. *)

From Stdlib Require Import List String Ascii Bool NArith ZArith Lia DecimalString.
From Stdlib.Strings Require Import Byte.
Import ListNotations.
Local Open Scope string_scope.
Set Warnings "-register-all".

(** ** Exceptions and results *)

Inductive exn : Type :=
| WebSocketDisconnect            (* starlette: the client went away *)
| JSONDecodeError                (* json.loads *)
| KeyError (key : string)        (* dict subscript *)
| TypeError                      (* subscript or b64decode on a wrong type *)
| ValueError                     (* non-ASCII text given to b64decode *)
| BinasciiError                  (* binascii.Error: bad padding or length *)
| AttributeError                 (* method call on None *)
| LibraryError (name : string).  (* any error raised by a transport library *)

Inductive result (A : Type) : Type :=
| Ok (a : A)
| Raise (e : exn).
Arguments Ok {A} a.
Arguments Raise {A} e.

Definition bind {A B} (r : result A) (k : A -> result B) : result B :=
  match r with
  | Ok a => k a
  | Raise e => Raise e
  end.

Notation "x <- r ;; k" := (bind r (fun x => k))
  (at level 61, r at next level, right associativity).

(** ** JSON values *)

(** A Python float is kept by its [repr], which is what [json.dumps] prints. *)
Inductive json : Type :=
| JNull
| JBool (b : bool)
| JInt (z : Z)
| JFloat (repr : string)
| JStr (s : string)
| JArr (items : list json)
| JObj (fields : list (string * json)).

Fixpoint dict_get (fields : list (string * json)) (key : string) : option json :=
  match fields with
  | [] => None
  | (k, v) :: rest => if String.eqb k key then Some v else dict_get rest key
  end.

(** [data[key]] for a string key. *)
Definition subscript (data : json) (key : string) : result json :=
  match data with
  | JObj fields =>
      match dict_get fields key with
      | Some v => Ok v
      | None => Raise (KeyError key)
      end
  | _ => Raise TypeError
  end.

(** [v == s] for a string literal [s]. *)
Definition py_eq_str (v : json) (s : string) : bool :=
  match v with
  | JStr t => String.eqb t s
  | _ => false
  end.

(** *** [json.dumps] with its default settings *)

Definition hex_digit (n : N) : ascii :=
  match String.get (N.to_nat n) "0123456789abcdef" with
  | Some c => c
  | None => "0"%char
  end.

Definition quote : string := String (ascii_of_N 34) EmptyString.

Definition backslash : ascii := ascii_of_N 92.

(** [ESCAPE_DCT] and the [\uXXXX] form of [py_encode_basestring_ascii]. *)
Definition escape_char (c : ascii) : string :=
  let n := N_of_ascii c in
  if (n =? 34)%N then String backslash quote
  else if (n =? 92)%N then String backslash (String backslash EmptyString)
  else if (n =? 10)%N then String backslash "n"
  else if (n =? 13)%N then String backslash "r"
  else if (n =? 9)%N then String backslash "t"
  else if (n =? 12)%N then String backslash "f"
  else if (n =? 8)%N then String backslash "b"
  else if ((32 <=? n) && (n <=? 126))%N then String c EmptyString
  else String backslash "u00" ++
       String (hex_digit (N.shiftr n 4)) (String (hex_digit (N.land n 15)) EmptyString).

Fixpoint escape_body (s : string) : string :=
  match s with
  | EmptyString => EmptyString
  | String c rest => escape_char c ++ escape_body rest
  end.

Definition encode_basestring_ascii (s : string) : string :=
  quote ++ escape_body s ++ quote.

Definition string_of_Z (z : Z) : string := NilZero.string_of_int (Z.to_int z).

Fixpoint dumps (v : json) : string :=
  match v with
  | JNull => "null"
  | JBool true => "true"
  | JBool false => "false"
  | JInt z => string_of_Z z
  | JFloat r => r
  | JStr s => encode_basestring_ascii s
  | JArr items =>
      "[" ++ (fix go (l : list json) : string :=
                match l with
                | [] => EmptyString
                | x :: rest =>
                    match rest with
                    | [] => dumps x
                    | _ => dumps x ++ ", " ++ go rest
                    end
                end) items ++ "]"
  | JObj fields =>
      "{" ++ (fix go (l : list (string * json)) : string :=
                match l with
                | [] => EmptyString
                | (k, x) :: rest =>
                    match rest with
                    | [] => encode_basestring_ascii k ++ ": " ++ dumps x
                    | _ => encode_basestring_ascii k ++ ": " ++ dumps x ++ ", " ++ go rest
                    end
                end) fields ++ "}"
  end.

(** ** Base64, as [base64.b64encode] and [base64.b64decode] compute it *)

Module Base64.

Definition alphabet : string :=
  "ABCDEFGHIJKLMNOPQRSTUVWXYZabcdefghijklmnopqrstuvwxyz0123456789+/".

Definition pad : ascii := "="%char.

(** [table_b2a_base64] *)
Definition b2a (i : N) : ascii :=
  match String.get (N.to_nat i) alphabet with
  | Some c => c
  | None => pad
  end.

Fixpoint index_from (c : ascii) (s : string) (i : N) : option N :=
  match s with
  | EmptyString => None
  | String d rest => if Ascii.eqb c d then Some i else index_from c rest (N.succ i)
  end.

(** [table_a2b_base64]: [None] for a character outside the alphabet. *)
Definition a2b (c : ascii) : option N := index_from c alphabet 0.

Definition byte_of_N (n : N) : byte :=
  match Byte.of_N (N.land n 255) with
  | Some b => b
  | None => x00
  end.

(** The sextets of a group of three bytes. *)
Definition sextet0 (a : N) : N := N.shiftr a 2.
Definition sextet1 (a b : N) : N := N.lor (N.shiftl (N.land a 3) 4) (N.shiftr b 4).
Definition sextet2 (b c : N) : N := N.lor (N.shiftl (N.land b 15) 2) (N.shiftr c 6).
Definition sextet3 (c : N) : N := N.land c 63.

Fixpoint b64encode (data : list byte) : string :=
  match data with
  | [] => EmptyString
  | a :: rest1 =>
      let na := Byte.to_N a in
      match rest1 with
      | [] =>
          String (b2a (sextet0 na)) (String (b2a (sextet1 na 0))
            (String pad (String pad EmptyString)))
      | b :: rest2 =>
          let nb := Byte.to_N b in
          match rest2 with
          | [] =>
              String (b2a (sextet0 na)) (String (b2a (sextet1 na nb))
                (String (b2a (sextet2 nb 0)) (String pad EmptyString)))
          | c :: rest3 =>
              let nc := Byte.to_N c in
              String (b2a (sextet0 na)) (String (b2a (sextet1 na nb))
                (String (b2a (sextet2 nb nc)) (String (b2a (sextet3 nc))
                  (b64encode rest3))))
          end
      end
  end.

(** The decoding loop of [binascii.a2b_base64] in its lenient mode: a
    character outside the alphabet is skipped, a complete pad sequence stops
    the decoding, leftover sextets are an error.  [out] is kept reversed. *)
Fixpoint a2b_base64 (s : string) (quad_pos leftchar pads : N) (out : list byte)
  : result (list byte) :=
  match s with
  | EmptyString =>
      if (quad_pos =? 0)%N then Ok (rev out) else Raise BinasciiError
  | String ch rest =>
      if Ascii.eqb ch pad then
        if (2 <=? quad_pos)%N then
          if (4 <=? quad_pos + (pads + 1))%N then Ok (rev out)
          else a2b_base64 rest quad_pos leftchar (pads + 1) out
        else a2b_base64 rest quad_pos leftchar pads out
      else
        match a2b ch with
        | None => a2b_base64 rest quad_pos leftchar pads out
        | Some this_ch =>
            match quad_pos with
            | 0%N => a2b_base64 rest 1 this_ch 0 out
            | 1%N =>
                a2b_base64 rest 2 (N.land this_ch 15) 0
                  (byte_of_N (N.lor (N.shiftl leftchar 2) (N.shiftr this_ch 4)) :: out)
            | 2%N =>
                a2b_base64 rest 3 (N.land this_ch 3) 0
                  (byte_of_N (N.lor (N.shiftl leftchar 4) (N.shiftr this_ch 2)) :: out)
            | _ =>
                a2b_base64 rest 0 0 0
                  (byte_of_N (N.lor (N.shiftl leftchar 6) this_ch) :: out)
            end
        end
  end.

Fixpoint is_ascii (s : string) : bool :=
  match s with
  | EmptyString => true
  | String c rest => (N_of_ascii c <? 128)%N && is_ascii rest
  end.

(** [base64.b64decode(s)] for a [str] argument. *)
Definition b64decode (s : string) : result (list byte) :=
  if is_ascii s then a2b_base64 s 0 0 0 [] else Raise ValueError.

(** *** Checks used to prove the round trip *)

(** Exhaustive checks over an initial segment of [N]. *)
Fixpoint all_below (n : nat) (P : N -> bool) : bool :=
  match n with
  | O => true
  | S k => P (N.of_nat k) && all_below k P
  end.

(** A sextet survives the two tables, and its character is neither the pad
    nor outside ASCII. *)
Definition sextet_ok (i : N) : bool :=
  match a2b (b2a i) with
  | Some j => (j =? i)%N
  | None => false
  end && negb (Ascii.eqb (b2a i) pad) && (N_of_ascii (b2a i) <? 128)%N.

(** What the decoder rebuilds from the sextets of one or two bytes. *)
Definition one_byte_ok (a : N) : bool :=
  (sextet0 a <? 64)%N && (sextet3 a <? 64)%N
  && (N.land (N.lor (N.shiftl (N.shiftr a 6) 6) (sextet3 a)) 255 =? a)%N.

Definition two_bytes_ok (a b : N) : bool :=
  (sextet1 a b <? 64)%N && (sextet2 a b <? 64)%N
  && (N.land (N.lor (N.shiftl (sextet0 a) 2) (N.shiftr (sextet1 a b) 4)) 255 =? a)%N
  && (N.land (sextet1 a b) 15 =? N.shiftr b 4)%N
  && (N.land (N.lor (N.shiftl (N.shiftr a 4) 4) (N.shiftr (sextet2 a b) 2)) 255 =? a)%N
  && (N.land (sextet2 a b) 3 =? N.shiftr b 6)%N.

(** *** What the lenient decoder looks at *)

(** The characters the decoding loop does not skip: the pad and the
    alphabet. *)
Definition significant (c : ascii) : bool :=
  Ascii.eqb c pad || match a2b c with Some _ => true | None => false end.

Fixpoint strip (s : string) : string :=
  match s with
  | EmptyString => EmptyString
  | String c rest => if significant c then String c (strip rest) else strip rest
  end.

End Base64.

(** [base64.b64decode(v)] for a decoded JSON value. *)
Definition b64decode_value (v : json) : result (list byte) :=
  match v with
  | JStr s => Base64.b64decode s
  | _ => Raise TypeError
  end.

(** ** The upstream session: [GeminiLiveSession] *)

Definition GEMINI_LIVE_WS : string :=
  "wss://generativelanguage.googleapis.com/ws/google.ai.generativelanguage.v1alpha.LLMService/LiveSession".

(** The connection object of the [websockets] library, as far as the session
    sees it: its [close()] leaves it closed, whatever it was. *)
Inductive Transport : Type := TransportOpen | TransportClosed.

Definition transport_close (t : Transport) : Transport := TransportClosed.

Record GeminiLiveSession : Type := {
  api_key : string;
  model : string;
  ws : option Transport
}.

(** [__init__] *)
Definition new_session (key model_id : string) : GeminiLiveSession :=
  {| api_key := key; model := model_id; ws := None |}.

Definition set_ws (self : GeminiLiveSession) (t : option Transport) : GeminiLiveSession :=
  {| api_key := api_key self; model := model self; ws := t |}.

(** What the relay asks of its two peers and of the event loop, in the order
    of the calls. *)
Inductive Task : Type := ClientToGemini | GeminiToClient.

Inductive Action : Type :=
| ClientAccept                                  (* websocket.accept() *)
| ClientSendJson (payload : json)               (* websocket.send_json(payload) *)
| ClientClose                                   (* websocket.close() *)
| UpstreamConnect (url : string) (max_size : Z) (* websockets.connect(url, max_size=...) *)
| UpstreamSend (frame : string)                 (* self.ws.send(frame) *)
| UpstreamClose                                 (* self.ws.close() *)
| CreateTask (t : Task)                         (* asyncio.create_task(...) *)
| CancelTask (t : Task).                        (* t.cancel() *)

Definition connect_url (self : GeminiLiveSession) : string :=
  GEMINI_LIVE_WS ++ "?key=" ++ api_key self.

Definition max_size : Z := 32 * 1024 * 1024.

Definition setup_message (self : GeminiLiveSession) : json :=
  JObj [("setup", JObj [
    ("model", JStr (model self));
    ("response", JObj [
       ("modalities", JArr [JStr "AUDIO"; JStr "TEXT"]);
       ("instructions", JStr "You are a helpful assistant.")])])].

(** [connect], up to its first suspension: the transport handshake. *)
Definition connect (self : GeminiLiveSession) : Action :=
  UpstreamConnect (connect_url self) max_size.

(** [connect], once the handshake is done: [self.ws] is set and the setup
    frame is written. *)
Definition connect_established (self : GeminiLiveSession) : GeminiLiveSession * Action :=
  (set_ws self (Some TransportOpen), UpstreamSend (dumps (setup_message self))).

(** [close]: nothing on a session that has no transport; [self.ws] is kept. *)
Definition close (self : GeminiLiveSession) : GeminiLiveSession * list Action :=
  match ws self with
  | Some t => (set_ws self (Some (transport_close t)), [UpstreamClose])
  | None => (self, [])
  end.

Definition user_text_event (text : json) : json :=
  JObj [("input", JObj [("text", text)])].

Definition user_audio_event (pcm16 : list byte) : json :=
  JObj [("input", JObj [("audio", JObj [
    ("mime_type", JStr "audio/pcm;rate=16000");
    ("data", JStr (Base64.b64encode pcm16))])])].

Definition user_video_event (jpg : list byte) : json :=
  JObj [("input", JObj [("video", JObj [
    ("mime_type", JStr "image/jpeg");
    ("data", JStr (Base64.b64encode jpg))])])].

Definition ws_send (self : GeminiLiveSession) (frame : string) : result Action :=
  match ws self with
  | Some _ => Ok (UpstreamSend frame)
  | None => Raise AttributeError
  end.

Definition send_user_text (self : GeminiLiveSession) (text : json) : result Action :=
  ws_send self (dumps (user_text_event text)).

Definition send_user_audio (self : GeminiLiveSession) (pcm16 : list byte) : result Action :=
  ws_send self (dumps (user_audio_event pcm16)).

Definition send_user_video (self : GeminiLiveSession) (jpg : list byte) : result Action :=
  ws_send self (dumps (user_video_event jpg)).

(** ** The endpoint [/ws] *)

Record Config : Type := {
  API_KEY : option string;   (* os.environ.get("GOOGLE_API_KEY") *)
  MODEL_ID : string
}.

(** [not API_KEY] *)
Definition missing_key (k : option string) : bool :=
  match k with
  | None => true
  | Some EmptyString => true
  | Some _ => false
  end.

(** The credential as a [str], once [not API_KEY] is false. *)
Definition key_of (k : option string) : string :=
  match k with
  | Some key => key
  | None => EmptyString
  end.

Definition error_frame : json := JObj [("error", JStr "Missing GOOGLE_API_KEY")].

Definition gemini_envelope (evt : json) : json :=
  JObj [("type", JStr "gemini"); ("data", evt)].

(** How a task ended. *)
Inductive Outcome : Type :=
| Returned
| Raised (e : exn)
| WasCancelled.

(** A task is suspended at an [await], or has been asked to cancel and not
    run since, or is done. *)
Inductive Status (pc : Type) : Type :=
| Pending (at_await : pc)
| CancelRequested
| Finished (o : Outcome).
Arguments Pending {pc} at_await.
Arguments CancelRequested {pc}.
Arguments Finished {pc} o.

Inductive InboundPc : Type :=
| InReceive     (* msg = await websocket.receive_text() *)
| InSend.       (* await self.ws.send(...) inside send_user_text / send_user_audio *)

Inductive OutboundPc : Type :=
| OutNext       (* async for msg in self.ws *)
| OutSend.      (* await websocket.send_json(...) *)

Inductive HandlerPc : Type :=
| AtAccept      (* await websocket.accept() *)
| AtErrorSend   (* await websocket.send_json({"error": ...}) *)
| AtErrorClose  (* await websocket.close() *)
| AtConnect     (* self.ws = await websockets.connect(...) *)
| AtSetup       (* await self.ws.send(json.dumps(setup)) *)
| AtWait        (* await asyncio.wait(tasks, return_when=FIRST_COMPLETED) *)
| AtClose       (* await self.ws.close() *)
| HReturned
| HRaised (e : exn).

Record State : Type := {
  handler : HandlerPc;
  session : option GeminiLiveSession;
  inbound : option (Status InboundPc);     (* client_to_gemini *)
  outbound : option (Status OutboundPc);   (* gemini_to_client *)
  trace : list Action
}.

(** One item of [async for msg in self.ws]. *)
Inductive StreamItem : Type :=
| Message (msg : string)
| StopAsyncIteration
| StreamRaise (e : exn).

(** What the event loop delivers: the completion of the one [await] a
    coroutine is suspended at, or a requested cancellation. *)
Inductive Event : Type :=
| Handler (r : result unit)
| ClientFrame (r : result string)
| UpstreamSent (r : result unit)
| UpstreamItem (r : StreamItem)
| ClientSent (r : result unit)
| CancelDelivered (t : Task).

(** [t.cancel()]: a task that is done stays as it is. *)
Definition cancel {pc} (st : Status pc) : Status pc :=
  match st with
  | Pending _ => CancelRequested
  | CancelRequested => CancelRequested
  | Finished o => Finished o
  end.

Definition is_finished {pc} (st : option (Status pc)) : bool :=
  match st with
  | Some (Finished _) => true
  | _ => false
  end.

Definition is_pending {pc} (st : option (Status pc)) : bool :=
  match st with
  | Some (Pending _) => true
  | _ => false
  end.

(** [except WebSocketDisconnect: pass] around the inbound loop. *)
Definition except_disconnect (e : exn) : Outcome :=
  match e with
  | WebSocketDisconnect => Returned
  | _ => Raised e
  end.

(** What the outbound task ends with on an item that is no decodable
    message. *)
Definition stream_end_outcome (item : StreamItem) : Outcome :=
  match item with
  | StopAsyncIteration => Returned
  | StreamRaise e => Raised e
  | Message _ => Raised JSONDecodeError
  end.

(** *** Reading a trace *)

Definition upstream_frames (tr : list Action) : list string :=
  flat_map (fun a => match a with UpstreamSend f => [f] | _ => [] end) tr.

Definition upstream_connects (tr : list Action) : list (string * Z) :=
  flat_map (fun a => match a with UpstreamConnect u m => [(u, m)] | _ => [] end) tr.

Definition upstream_closes (tr : list Action) : nat :=
  List.length (filter (fun a => match a with UpstreamClose => true | _ => false end) tr).

Definition client_frames (tr : list Action) : list json :=
  flat_map (fun a => match a with ClientSendJson j => [j] | _ => [] end) tr.

Definition client_closes (tr : list Action) : nat :=
  List.length (filter (fun a => match a with ClientClose => true | _ => false end) tr).

Section Relay.

(** [json.loads] on the text of a frame; [None] when it raises. *)
Variable json_loads : string -> option json.
Variable cfg : Config.

Definition loads (msg : string) : result json :=
  match json_loads msg with
  | Some data => Ok data
  | None => Raise JSONDecodeError
  end.

(** The body of the inbound loop after [receive_text] returned [msg]: the
    upstream write it suspends at, or [None] when the frame is of no known
    type. *)
Definition client_to_gemini_dispatch (sess : GeminiLiveSession) (msg : string)
  : result (option Action) :=
  data <- loads msg ;;
  ty <- subscript data "type" ;;
  if py_eq_str ty "text" then
    text <- subscript data "text" ;;
    a <- send_user_text sess text ;;
    Ok (Some a)
  else
    ty' <- subscript data "type" ;;
    if py_eq_str ty' "audio" then
      b64 <- subscript data "pcm16" ;;
      pcm16 <- b64decode_value b64 ;;
      a <- send_user_audio sess pcm16 ;;
      Ok (Some a)
    else Ok None.

Definition client_to_gemini_received (sess : GeminiLiveSession) (r : result string)
  : Status InboundPc * list Action :=
  match r with
  | Raise e => (Finished (except_disconnect e), [])
  | Ok msg =>
      match client_to_gemini_dispatch sess msg with
      | Ok (Some a) => (Pending InSend, [a])
      | Ok None => (Pending InReceive, [])
      | Raise e => (Finished (except_disconnect e), [])
      end
  end.

Definition client_to_gemini_sent (r : result unit) : Status InboundPc :=
  match r with
  | Ok _ => Pending InReceive
  | Raise e => Finished (except_disconnect e)
  end.

(** [receive] and the body of the outbound loop. *)
Definition gemini_to_client_item (r : StreamItem) : Status OutboundPc * list Action :=
  match r with
  | Message msg =>
      match loads msg with
      | Ok evt => (Pending OutSend, [ClientSendJson (gemini_envelope evt)])
      | Raise e => (Finished (Raised e), [])
      end
  | StopAsyncIteration => (Finished Returned, [])
  | StreamRaise e => (Finished (Raised e), [])
  end.

Definition gemini_to_client_sent (r : result unit) : Status OutboundPc :=
  match r with
  | Ok _ => Pending OutNext
  | Raise e => Finished (Raised e)
  end.

Definition with_handler (s : State) (pc : HandlerPc) (acts : list Action) : State :=
  {| handler := pc; session := session s; inbound := inbound s;
     outbound := outbound s; trace := trace s ++ acts |}.

Definition with_inbound (s : State) (st : Status InboundPc) (acts : list Action) : State :=
  {| handler := handler s; session := session s; inbound := Some st;
     outbound := outbound s; trace := trace s ++ acts |}.

Definition with_outbound (s : State) (st : Status OutboundPc) (acts : list Action) : State :=
  {| handler := handler s; session := session s; inbound := inbound s;
     outbound := Some st; trace := trace s ++ acts |}.

(** The endpoint is entered: it asks to accept the connection. *)
Definition ws_endpoint : State :=
  {| handler := AtAccept; session := None; inbound := None; outbound := None;
     trace := [ClientAccept] |}.

(** The lines after [asyncio.wait] returned: both tasks are asked to cancel,
    then the session is closed. *)
Definition teardown (s : State) (sess : GeminiLiveSession) : State :=
  let '(sess', closing) := close sess in
  {| handler := match closing with [] => HReturned | _ => AtClose end;
     session := Some sess';
     inbound := option_map cancel (inbound s);
     outbound := option_map cancel (outbound s);
     trace := trace s ++ [CancelTask ClientToGemini; CancelTask GeminiToClient] ++ closing |}.

(** The handler resumes with the result [r] of the call it awaited. *)
Definition ws_endpoint_resume (s : State) (r : result unit) : option State :=
  match handler s, r with
  | HReturned, _ | HRaised _, _ => None
  | AtWait, Ok _ =>
      if is_finished (inbound s) || is_finished (outbound s) then
        match session s with
        | Some sess => Some (teardown s sess)
        | None => None
        end
      else None
  | AtWait, Raise _ => None
  | _, Raise e => Some (with_handler s (HRaised e) [])
  | AtAccept, Ok _ =>
      if missing_key (API_KEY cfg) then
        Some (with_handler s AtErrorSend [ClientSendJson error_frame])
      else
        let sess := new_session (key_of (API_KEY cfg)) (MODEL_ID cfg) in
        Some {| handler := AtConnect; session := Some sess; inbound := None;
                outbound := None; trace := trace s ++ [connect sess] |}
  | AtErrorSend, Ok _ => Some (with_handler s AtErrorClose [ClientClose])
  | AtErrorClose, Ok _ => Some (with_handler s HReturned [])
  | AtConnect, Ok _ =>
      match session s with
      | Some sess =>
          let '(sess', a) := connect_established sess in
          Some {| handler := AtSetup; session := Some sess'; inbound := None;
                  outbound := None; trace := trace s ++ [a] |}
      | None => None
      end
  | AtSetup, Ok _ =>
      Some {| handler := AtWait; session := session s;
              inbound := Some (Pending InReceive);
              outbound := Some (Pending OutNext);
              trace := trace s ++ [CreateTask ClientToGemini; CreateTask GeminiToClient] |}
  | AtClose, Ok _ => Some (with_handler s HReturned [])
  end.

(** One turn of the event loop.  [None]: no coroutine is waiting for [ev]. *)
Definition step (s : State) (ev : Event) : option State :=
  match ev with
  | Handler r => ws_endpoint_resume s r
  | ClientFrame r =>
      match inbound s, session s with
      | Some (Pending InReceive), Some sess =>
          let '(st, acts) := client_to_gemini_received sess r in
          Some (with_inbound s st acts)
      | _, _ => None
      end
  | UpstreamSent r =>
      match inbound s with
      | Some (Pending InSend) => Some (with_inbound s (client_to_gemini_sent r) [])
      | _ => None
      end
  | UpstreamItem r =>
      match outbound s with
      | Some (Pending OutNext) =>
          let '(st, acts) := gemini_to_client_item r in
          Some (with_outbound s st acts)
      | _ => None
      end
  | ClientSent r =>
      match outbound s with
      | Some (Pending OutSend) => Some (with_outbound s (gemini_to_client_sent r) [])
      | _ => None
      end
  | CancelDelivered ClientToGemini =>
      match inbound s with
      | Some CancelRequested => Some (with_inbound s (Finished WasCancelled) [])
      | _ => None
      end
  | CancelDelivered GeminiToClient =>
      match outbound s with
      | Some CancelRequested => Some (with_outbound s (Finished WasCancelled) [])
      | _ => None
      end
  end.

Fixpoint exec (s : State) (evs : list Event) : option State :=
  match evs with
  | [] => Some s
  | ev :: rest =>
      match step s ev with
      | Some s' => exec s' rest
      | None => None
      end
  end.

(** A decoded frame without the field [key]: a [dict] that has no such key,
    or a JSON value that is no [dict] at all. *)
Definition lacks (data : json) (key : string) : Prop :=
  match data with
  | JObj fields => dict_get fields key = None
  | _ => True
  end.

(** A client frame that is no JSON, or has no [type], or not the field its
    [type] asks for. *)
Definition malformed (msg : string) : Prop :=
  json_loads msg = None \/
  exists data,
    json_loads msg = Some data /\
    (lacks data "type"
     \/ (subscript data "type" = Ok (JStr "text") /\ lacks data "text")
     \/ (subscript data "type" = Ok (JStr "audio") /\ lacks data "pcm16")).

(** ** The states the endpoint can be in *)

Definition fresh_session : GeminiLiveSession :=
  new_session (key_of (API_KEY cfg)) (MODEL_ID cfg).

Definition open_session : GeminiLiveSession := set_ws fresh_session (Some TransportOpen).

Definition closed_session : GeminiLiveSession := set_ws fresh_session (Some TransportClosed).

Definition connecting_trace : list Action :=
  [ClientAccept; UpstreamConnect (GEMINI_LIVE_WS ++ "?key=" ++ key_of (API_KEY cfg)) max_size].

Definition setup_trace : list Action :=
  connecting_trace ++ [UpstreamSend (dumps (setup_message fresh_session))].

Definition active_trace : list Action :=
  setup_trace ++ [CreateTask ClientToGemini; CreateTask GeminiToClient].

Definition teardown_trace : list Action :=
  [CancelTask ClientToGemini; CancelTask GeminiToClient; UpstreamClose].

(** What a pump may add to the trace. *)
Inductive pump_action : Action -> Prop :=
| pump_text (text : json) : pump_action (UpstreamSend (dumps (user_text_event text)))
| pump_audio (pcm16 : list byte) : pump_action (UpstreamSend (dumps (user_audio_event pcm16)))
| pump_envelope (evt : json) : pump_action (ClientSendJson (gemini_envelope evt)).

Definition not_pending {pc} (st : Status pc) : Prop :=
  match st with
  | Pending _ => False
  | _ => True
  end.

Definition not_cancelling {pc} (st : Status pc) : Prop :=
  match st with
  | Pending _ => True
  | CancelRequested => False
  | Finished WasCancelled => False
  | Finished _ => True
  end.

Definition ended (pc : HandlerPc) : Prop :=
  pc = HReturned \/ exists e, pc = HRaised e.

(** Named states of a run. *)

Definition error_sent : State :=
  {| handler := AtErrorSend; session := None; inbound := None; outbound := None;
     trace := [ClientAccept; ClientSendJson error_frame] |}.

Definition error_closing : State :=
  {| handler := AtErrorClose; session := None; inbound := None; outbound := None;
     trace := [ClientAccept; ClientSendJson error_frame; ClientClose] |}.

Definition connecting : State :=
  {| handler := AtConnect; session := Some fresh_session; inbound := None;
     outbound := None; trace := connecting_trace |}.

Definition setting_up : State :=
  {| handler := AtSetup; session := Some open_session; inbound := None;
     outbound := None; trace := setup_trace |}.

Definition active (i : Status InboundPc) (o : Status OutboundPc) (acts : list Action)
  : State :=
  {| handler := AtWait; session := Some open_session; inbound := Some i;
     outbound := Some o; trace := active_trace ++ acts |}.

Definition closing (pc : HandlerPc) (i : Status InboundPc) (o : Status OutboundPc)
  (acts : list Action) : State :=
  {| handler := pc; session := Some closed_session; inbound := Some i;
     outbound := Some o; trace := (active_trace ++ acts) ++ teardown_trace |}.

Inductive Shape : State -> Prop :=
| shape_accept pc :
    pc = AtAccept \/ (exists e, pc = HRaised e) ->
    Shape {| handler := pc; session := None; inbound := None; outbound := None;
             trace := [ClientAccept] |}
| shape_error_send pc :
    missing_key (API_KEY cfg) = true ->
    pc = AtErrorSend \/ (exists e, pc = HRaised e) ->
    Shape {| handler := pc; session := None; inbound := None; outbound := None;
             trace := [ClientAccept; ClientSendJson error_frame] |}
| shape_error_close pc :
    missing_key (API_KEY cfg) = true ->
    pc = AtErrorClose \/ ended pc ->
    Shape {| handler := pc; session := None; inbound := None; outbound := None;
             trace := [ClientAccept; ClientSendJson error_frame; ClientClose] |}
| shape_connect pc :
    missing_key (API_KEY cfg) = false ->
    pc = AtConnect \/ (exists e, pc = HRaised e) ->
    Shape {| handler := pc; session := Some fresh_session; inbound := None;
             outbound := None; trace := connecting_trace |}
| shape_setup pc :
    missing_key (API_KEY cfg) = false ->
    pc = AtSetup \/ (exists e, pc = HRaised e) ->
    Shape {| handler := pc; session := Some open_session; inbound := None;
             outbound := None; trace := setup_trace |}
| shape_active i o acts :
    missing_key (API_KEY cfg) = false ->
    not_cancelling i -> not_cancelling o ->
    Forall pump_action acts ->
    Shape {| handler := AtWait; session := Some open_session; inbound := Some i;
             outbound := Some o; trace := active_trace ++ acts |}
| shape_closing pc i o acts :
    missing_key (API_KEY cfg) = false ->
    pc = AtClose \/ ended pc ->
    not_pending i -> not_pending o ->
    Forall pump_action acts ->
    Shape {| handler := pc; session := Some closed_session; inbound := Some i;
             outbound := Some o; trace := (active_trace ++ acts) ++ teardown_trace |}.

(** *** What a run relays *)

(** The envelope sent for an upstream message that decodes. *)
Definition relayed (ev : Event) : list json :=
  match ev with
  | UpstreamItem (Message msg) =>
      match json_loads msg with
      | Some evt => [gemini_envelope evt]
      | None => []
      end
  | _ => []
  end.


End Relay.

(** ** Sample configurations, documents and runs *)

Module Samples.

Local Open Scope list_scope.

Definition text_doc : json := JObj [("type", JStr "text"); ("text", JStr "hello")].
Definition audio_doc : json := JObj [("type", JStr "audio"); ("pcm16", JStr "AAH/EA==")].
Definition ping_doc : json := JObj [("type", JStr "ping")].
Definition untyped_doc : json := JObj [("text", JStr "hello")].
Definition hi_doc : json := JObj [("output", JObj [("text", JStr "hi")])].

Definition docs : list json := [text_doc; audio_doc; ping_doc; untyped_doc; hi_doc].

(** A decoder for the sample documents: it undoes [dumps] on them and
    rejects any other text. *)
Definition sample_loads (msg : string) : option json :=
  find (fun d => String.eqb (dumps d) msg) docs.

Definition with_key : Config :=
  {| API_KEY := Some "secret"; MODEL_ID := "models/gemini-2.5-flash" |}.

Definition without_key : Config :=
  {| API_KEY := None; MODEL_ID := "models/gemini-2.5-flash" |}.

Definition ok : Event := Handler (Ok tt).

(** accept, handshake, setup frame: the two pumps are running. *)
Definition startup : list Event := [ok; ok; ok].

Definition run (c : Config) (evs : list Event) : State :=
  match exec sample_loads c ws_endpoint evs with
  | Some s => s
  | None => ws_endpoint
  end.

End Samples.

Module MoreSamples.

Import Samples.
Local Open Scope list_scope.

(** An [audio] frame whose [pcm16] is one sextet too long. *)
Definition bad_audio_doc : json :=
  JObj [("type", JStr "audio"); ("pcm16", JStr "AAH/E")].

Definition more_loads (msg : string) : option json :=
  find (fun d => String.eqb (dumps d) msg) (bad_audio_doc :: docs).

Definition more_run (evs : list Event) : State :=
  match exec more_loads with_key ws_endpoint evs with
  | Some s => s
  | None => ws_endpoint
  end.

(** Two frames go up, one of an unknown type is dropped, one event comes
    down, then the upstream stream ends and the handler tears down. *)
Definition session_events : list Event :=
  [ClientFrame (Ok (dumps text_doc)); UpstreamSent (Ok tt);
   UpstreamItem (Message (dumps hi_doc)); ClientSent (Ok tt);
   ClientFrame (Ok (dumps ping_doc));
   ClientFrame (Ok (dumps audio_doc)); UpstreamSent (Ok tt);
   UpstreamItem StopAsyncIteration; ok; CancelDelivered ClientToGemini; ok].

(** The encoding of four bytes, broken by a space and a line feed. *)
Definition broken_base64 : string :=
  "AAH/ " ++ String (ascii_of_N 10) "EA==".

End MoreSamples.

(** ** The base64 round trip *)

Module Base64Facts.
Import Base64.

Lemma all_below_spec (n : nat) (P : N -> bool) :
  all_below n P = true -> forall i, (i < N.of_nat n)%N -> P i = true.
Proof.
  induction n as [|k IH]; simpl; intros H i Hi.
  - lia.
  - apply andb_true_iff in H. destruct H as [Hk Hrest].
    destruct (N.eq_dec i (N.of_nat k)) as [->|Hne]; [exact Hk|].
    apply IH; [exact Hrest|lia].
Qed.

Lemma byte_range (b : byte) : (Byte.to_N b < N.of_nat 256)%N.
Proof. pose proof (Byte.to_N_bounded b). lia. Qed.

Lemma byte_of_to_N (b : byte) : byte_of_N (Byte.to_N b) = b.
Proof. destruct b; reflexivity. Qed.

Lemma sextet_tables (i : N) : (i < 64)%N -> sextet_ok i = true.
Proof.
  intros Hi. apply (all_below_spec 64 sextet_ok); [vm_compute; reflexivity|exact Hi].
Qed.

Lemma sextet_a2b (i : N) : (i < 64)%N -> a2b (b2a i) = Some i.
Proof.
  intros Hi. pose proof (sextet_tables i Hi) as H. unfold sextet_ok in H.
  apply andb_true_iff in H. destruct H as [H _].
  apply andb_true_iff in H. destruct H as [H _].
  destruct (a2b (b2a i)) as [j|]; [|discriminate].
  apply N.eqb_eq in H. now subst.
Qed.

Lemma sextet_not_pad (i : N) : (i < 64)%N -> Ascii.eqb (b2a i) pad = false.
Proof.
  intros Hi. pose proof (sextet_tables i Hi) as H. unfold sextet_ok in H.
  apply andb_true_iff in H. destruct H as [H _].
  apply andb_true_iff in H. destruct H as [_ H].
  now apply negb_true_iff in H.
Qed.

Lemma sextet_ascii (i : N) : (i < 64)%N -> (N_of_ascii (b2a i) <? 128)%N = true.
Proof.
  intros Hi. pose proof (sextet_tables i Hi) as H. unfold sextet_ok in H.
  apply andb_true_iff in H. now destruct H as [_ H].
Qed.

Lemma one_byte (a : byte) : one_byte_ok (Byte.to_N a) = true.
Proof.
  apply (all_below_spec 256 one_byte_ok); [vm_compute; reflexivity|apply byte_range].
Qed.

Lemma two_bytes (a b : byte) : two_bytes_ok (Byte.to_N a) (Byte.to_N b) = true.
Proof.
  pose proof (all_below_spec 256
    (fun x => all_below 256 (fun y => two_bytes_ok x y))) as H.
  assert (Hall : all_below 256 (fun x => all_below 256 (fun y => two_bytes_ok x y)) = true)
    by (vm_compute; reflexivity).
  specialize (H Hall (Byte.to_N a) (byte_range a)). cbv beta in H.
  exact (all_below_spec 256 _ H (Byte.to_N b) (byte_range b)).
Qed.

Ltac split_checks H :=
  repeat match type of H with
         | (_ && _)%bool = true =>
             let H1 := fresh "Hc" in
             apply andb_true_iff in H; destruct H as [H H1]
         end;
  repeat match goal with
         | Hx : (_ <? _)%N = true |- _ => apply N.ltb_lt in Hx
         | Hx : (_ =? _)%N = true |- _ => apply N.eqb_eq in Hx
         end.

Lemma byte_of_masked (x : N) (b : byte) :
  N.land x 255 = Byte.to_N b -> byte_of_N x = b.
Proof. intros H. unfold byte_of_N. rewrite H, Byte.of_to_N. reflexivity. Qed.

(** One decoding step on the character of a sextet. *)
Lemma decode_sextet (i : N) (rest : string) (quad_pos leftchar pads : N) (out : list byte) :
  (i < 64)%N ->
  a2b_base64 (String (b2a i) rest) quad_pos leftchar pads out =
  match quad_pos with
  | 0%N => a2b_base64 rest 1 i 0 out
  | 1%N => a2b_base64 rest 2 (N.land i 15) 0
             (byte_of_N (N.lor (N.shiftl leftchar 2) (N.shiftr i 4)) :: out)
  | 2%N => a2b_base64 rest 3 (N.land i 3) 0
             (byte_of_N (N.lor (N.shiftl leftchar 4) (N.shiftr i 2)) :: out)
  | _ => a2b_base64 rest 0 0 0 (byte_of_N (N.lor (N.shiftl leftchar 6) i) :: out)
  end.
Proof.
  intros Hi. cbn [a2b_base64].
  rewrite (sextet_not_pad i Hi), (sextet_a2b i Hi). reflexivity.
Qed.

(** The first two characters of a group give back its first byte. *)
Lemma decode_first (a b : byte) (rest : string) (leftchar pads : N) (out : list byte) :
  a2b_base64
    (String (b2a (sextet0 (Byte.to_N a)))
       (String (b2a (sextet1 (Byte.to_N a) (Byte.to_N b))) rest))
    0 leftchar pads out =
  a2b_base64 rest 2 (N.shiftr (Byte.to_N b) 4) 0 (a :: out).
Proof.
  pose proof (one_byte a) as Ha. unfold one_byte_ok in Ha. split_checks Ha.
  pose proof (two_bytes a b) as Hab. unfold two_bytes_ok in Hab. split_checks Hab.
  rewrite decode_sextet by assumption.
  rewrite decode_sextet by assumption.
  f_equal; [assumption|]. f_equal. now apply byte_of_masked.
Qed.

(** The third character gives back the second byte. *)
Lemma decode_second (b c : byte) (rest : string) (pads : N) (out : list byte) :
  a2b_base64 (String (b2a (sextet2 (Byte.to_N b) (Byte.to_N c))) rest)
    2 (N.shiftr (Byte.to_N b) 4) pads out =
  a2b_base64 rest 3 (N.shiftr (Byte.to_N c) 6) 0 (b :: out).
Proof.
  pose proof (two_bytes b c) as Hbc. unfold two_bytes_ok in Hbc. split_checks Hbc.
  rewrite decode_sextet by assumption.
  f_equal; [assumption|]. f_equal. now apply byte_of_masked.
Qed.

(** The fourth character gives back the third byte. *)
Lemma decode_third (c : byte) (rest : string) (pads : N) (out : list byte) :
  a2b_base64 (String (b2a (sextet3 (Byte.to_N c))) rest)
    3 (N.shiftr (Byte.to_N c) 6) pads out =
  a2b_base64 rest 0 0 0 (c :: out).
Proof.
  pose proof (one_byte c) as Hlast. unfold one_byte_ok in Hlast. split_checks Hlast.
  rewrite decode_sextet by assumption.
  f_equal. f_equal. now apply byte_of_masked.
Qed.

Lemma list_ind3 {A} (P : list A -> Prop) :
  P [] -> (forall a, P [a]) -> (forall a b, P [a; b]) ->
  (forall a b c l, P l -> P (a :: b :: c :: l)) ->
  forall l, P l.
Proof.
  intros H0 H1 H2 H3.
  fix IH 1. intros [|a [|b [|c l]]].
  - exact H0.
  - apply H1.
  - apply H2.
  - apply H3. apply IH.
Qed.

Lemma a2b_b64encode (data : list byte) :
  forall leftchar pads out,
    a2b_base64 (b64encode data) 0 leftchar pads out = Ok (rev out ++ data)%list.
Proof.
  induction data as [|a|a b|a b c l IH] using list_ind3; intros leftchar pads out.
  - cbn. now rewrite ?app_nil_r.
  - cbn [b64encode]. change 0%N with (Byte.to_N x00) at 1.
    rewrite decode_first. cbn. rewrite <- ?app_assoc. reflexivity.
  - cbn [b64encode]. rewrite decode_first.
    change 0%N with (Byte.to_N x00) at 1. rewrite decode_second.
    cbn. rewrite <- ?app_assoc. reflexivity.
  - cbn [b64encode]. rewrite decode_first, decode_second, decode_third, IH.
    cbn. rewrite <- ?app_assoc. reflexivity.
Qed.

Lemma b64encode_ascii (data : list byte) : is_ascii (b64encode data) = true.
Proof.
  induction data as [|a|a b|a b c l IH] using list_ind3.
  - reflexivity.
  - pose proof (one_byte a) as Ha. unfold one_byte_ok in Ha. split_checks Ha.
    pose proof (two_bytes a x00) as Hab. unfold two_bytes_ok in Hab. split_checks Hab.
    cbn [b64encode is_ascii]. change (Byte.to_N x00) with 0%N in *.
    rewrite !sextet_ascii by assumption. reflexivity.
  - pose proof (one_byte a) as Ha. unfold one_byte_ok in Ha. split_checks Ha.
    pose proof (two_bytes a b) as Hab. unfold two_bytes_ok in Hab. split_checks Hab.
    pose proof (two_bytes b x00) as Hb0. unfold two_bytes_ok in Hb0. split_checks Hb0.
    cbn [b64encode is_ascii]. change (Byte.to_N x00) with 0%N in *.
    rewrite !sextet_ascii by assumption. reflexivity.
  - pose proof (one_byte a) as Ha. unfold one_byte_ok in Ha. split_checks Ha.
    pose proof (one_byte c) as Hlast. unfold one_byte_ok in Hlast. split_checks Hlast.
    pose proof (two_bytes a b) as Hab. unfold two_bytes_ok in Hab. split_checks Hab.
    pose proof (two_bytes b c) as Hbc. unfold two_bytes_ok in Hbc. split_checks Hbc.
    cbn [b64encode is_ascii].
    rewrite !sextet_ascii by assumption. rewrite IH. reflexivity.
Qed.

(** Decoding what was encoded gives the bytes back. *)
Lemma b64decode_b64encode (data : list byte) :
  b64decode (b64encode data) = Ok data.
Proof.
  unfold b64decode. rewrite b64encode_ascii. apply a2b_b64encode.
Qed.

(** The loop raises nothing but [binascii.Error]. *)
Lemma a2b_base64_raises (s : string) :
  forall quad_pos leftchar pads out e,
    a2b_base64 s quad_pos leftchar pads out = Raise e -> e = BinasciiError.
Proof.
  induction s as [|ch rest IH]; intros quad_pos leftchar pads out e H;
    cbn [a2b_base64] in H.
  - destruct (quad_pos =? 0)%N; congruence.
  - destruct (Ascii.eqb ch pad).
    + destruct (2 <=? quad_pos)%N; [|now apply IH in H].
      destruct (4 <=? quad_pos + (pads + 1))%N; [discriminate|now apply IH in H].
    + destruct (a2b ch) as [this_ch|]; [|now apply IH in H].
      destruct quad_pos as [|[[p|p|]|[p|p|]|]]; now apply IH in H.
Qed.

Lemma a2b_base64_strip (s : string) :
  forall quad_pos leftchar pads out,
    a2b_base64 (strip s) quad_pos leftchar pads out =
    a2b_base64 s quad_pos leftchar pads out.
Proof.
  induction s as [|ch rest IH]; intros quad_pos leftchar pads out; [reflexivity|].
  cbn [strip]. unfold significant.
  destruct (Ascii.eqb ch pad) eqn:Hpad; cbn [orb].
  - cbn [a2b_base64]. rewrite Hpad.
    destruct (2 <=? quad_pos)%N; [|apply IH].
    destruct (4 <=? quad_pos + (pads + 1))%N; [reflexivity|apply IH].
  - destruct (a2b ch) as [this_ch|] eqn:Hch.
    + cbn [a2b_base64]. rewrite Hpad, Hch.
      destruct quad_pos as [|[[p|p|]|[p|p|]|]]; apply IH.
    + cbn [a2b_base64]. rewrite Hpad, Hch. apply IH.
Qed.

Lemma strip_ascii (s : string) : is_ascii s = true -> is_ascii (strip s) = true.
Proof.
  induction s as [|ch rest IH]; [reflexivity|]. cbn [is_ascii strip].
  intros H. apply andb_true_iff in H. destruct H as [Hch Hrest].
  destruct (significant ch); [cbn [is_ascii]; rewrite Hch|]; auto.
Qed.

Lemma b64decode_raises (s : string) (e : exn) :
  b64decode s = Raise e -> e = ValueError \/ e = BinasciiError.
Proof.
  unfold b64decode. destruct (is_ascii s).
  - intros H. right. exact (a2b_base64_raises s _ _ _ _ e H).
  - intros H. left. congruence.
Qed.

(** X13: the decoder skips what is neither in the alphabet nor the pad: an
    ASCII text that is the encoding of [data] with such characters (spaces,
    line breaks) put anywhere decodes to [data]. *)
Theorem b64decode_skips_other_characters (s : string) (data : list byte) :
  is_ascii s = true ->
  strip s = b64encode data ->
  b64decode s = Ok data.
Proof.
  intros Hascii Hstrip. unfold b64decode. rewrite Hascii.
  rewrite <- a2b_base64_strip, Hstrip. apply a2b_b64encode.
Qed.

(** 4096 bytes of silence come back as they were. *)
Example silence_round_trip :
  b64decode (b64encode (repeat x00 4096)) = Ok (repeat x00 4096).
Proof. apply b64decode_b64encode. Qed.

End Base64Facts.

(** The text of two frames, with the separators of [json.dumps]. *)
Example dumps_user_text :
  dumps (user_text_event (JStr "hello")) =
  "{" ++ quote ++ "input" ++ quote ++ ": {" ++ quote ++ "text" ++ quote ++ ": "
      ++ quote ++ "hello" ++ quote ++ "}}".
Proof. reflexivity. Qed.

Example dumps_escapes :
  dumps (JArr [JInt (-20); JNull; JBool true;
               JStr (String (ascii_of_N 10) (String (ascii_of_N 200) "x"))]) =
  "[-20, null, true, " ++ quote ++ String backslash "n" ++ String backslash "u00c8x"
      ++ quote ++ "]".
Proof. reflexivity. Qed.

(** ** Every run of the endpoint stays within [Shape] *)

Section RelayFacts.

Local Open Scope list_scope.

Variable json_loads : string -> option json.
Variable cfg : Config.

Lemma pump_received_actions (sess : GeminiLiveSession) (r : result string) :
  ws sess <> None ->
  Forall pump_action (snd (client_to_gemini_received json_loads sess r)) /\
  not_cancelling (fst (client_to_gemini_received json_loads sess r)).
Proof.
  intros Hws. unfold client_to_gemini_received.
  destruct r as [msg|e]; [|split; [constructor|destruct e; exact I]].
  unfold client_to_gemini_dispatch, send_user_text, send_user_audio, ws_send.
  destruct (ws sess) as [t|]; [|congruence].
  destruct (loads json_loads msg) as [data|e]; cbn [bind];
    [|split; [constructor|destruct e; exact I]].
  destruct (subscript data "type") as [ty|e]; cbn [bind];
    [|split; [constructor|destruct e; exact I]].
  destruct (py_eq_str ty "text").
  - destruct (subscript data "text") as [text|e]; cbn [bind fst snd];
      [|split; [constructor|destruct e; exact I]].
    split; [constructor; [apply pump_text|constructor]|exact I].
  - destruct (py_eq_str ty "audio"); [|split; [constructor|exact I]].
    destruct (subscript data "pcm16") as [b64|e]; cbn [bind];
      [|split; [constructor|destruct e; exact I]].
    destruct (b64decode_value b64) as [pcm16|e]; cbn [bind fst snd];
      [|split; [constructor|destruct e; exact I]].
    split; [constructor; [apply pump_audio|constructor]|exact I].
Qed.

Lemma pump_item_actions (r : StreamItem) :
  Forall pump_action (snd (gemini_to_client_item json_loads r)) /\
  not_cancelling (fst (gemini_to_client_item json_loads r)).
Proof.
  unfold gemini_to_client_item. destruct r as [msg| |e]; cbn.
  - destruct (loads json_loads msg); cbn [fst snd]; split; try exact I.
    + constructor; [apply pump_envelope|constructor].
    + constructor.
  - split; [constructor|exact I].
  - split; [constructor|exact I].
Qed.


Ltac split_pc :=
  unfold ended in *;
  repeat match goal with
         | H : _ \/ _ |- _ => destruct H
         | H : exists _, _ |- _ => destruct H
         end; subst.

Lemma some_inj {A} (a b : A) : Some a = Some b -> a = b.
Proof. congruence. Qed.

Ltac step_inv H :=
  rewrite ?app_nil_r in H;
  repeat match type of H with
         | Some _ = Some _ => apply some_inj in H; subst
         | None = Some _ => discriminate H
         | context [match ?r with Ok _ => _ | Raise _ => _ end] => destruct r
         end.

Lemma resume_shape (s s' : State) (r : result unit) :
  Shape cfg s -> ws_endpoint_resume cfg s r = Some s' -> Shape cfg s'.
Proof.
  intros Hs Hstep. destruct Hs; split_pc;
    unfold ws_endpoint_resume, with_handler in Hstep;
    cbn [handler session inbound outbound trace connect_established] in Hstep;
    try discriminate.
  - (* accepted *)
    destruct r as [u|e].
    + destruct (missing_key (API_KEY cfg)) eqn:Hkey; step_inv Hstep.
      * apply (shape_error_send cfg AtErrorSend); auto.
      * apply (shape_connect cfg AtConnect); auto.
    + step_inv Hstep. apply (shape_accept cfg (HRaised e)); eauto.
  - (* the error frame was written *)
    destruct r as [u|e]; step_inv Hstep.
    + apply (shape_error_close cfg AtErrorClose); auto.
    + apply (shape_error_send cfg (HRaised e)); eauto.
  - (* the client connection was closed *)
    destruct r as [u|e]; step_inv Hstep.
    + apply (shape_error_close cfg HReturned); unfold ended; auto.
    + apply (shape_error_close cfg (HRaised e)); unfold ended; eauto.
  - (* the upstream handshake *)
    destruct r as [u|e]; step_inv Hstep.
    + apply (shape_setup cfg AtSetup); auto.
    + apply (shape_connect cfg (HRaised e)); eauto.
  - (* the setup frame was written *)
    destruct r as [u|e]; step_inv Hstep.
    + apply (shape_active cfg (Pending InReceive) (Pending OutNext) []);
        auto; exact I.
    + apply (shape_setup cfg (HRaised e)); eauto.
  - (* a pump is done *)
    destruct r as [u|e]; [|discriminate].
    destruct (is_finished (Some i) || is_finished (Some o)); [|discriminate].
    step_inv Hstep.
    apply (shape_closing cfg AtClose (cancel i) (cancel o) acts); auto.
    + destruct i; exact I.
    + destruct o; exact I.
  - (* the upstream transport was closed *)
    destruct r as [u|e]; step_inv Hstep.
    + apply (shape_closing cfg HReturned i o acts); unfold ended; auto.
    + apply (shape_closing cfg (HRaised e) i o acts); unfold ended; eauto.
Qed.

Lemma step_shape (s s' : State) (ev : Event) :
  Shape cfg s -> step json_loads cfg s ev = Some s' -> Shape cfg s'.
Proof.
  intros Hs Hstep.
  destruct ev as [r|r|r|r|r|[|]]; [exact (resume_shape s s' r Hs Hstep)|..];
    destruct Hs; unfold step in Hstep;
    cbn [handler session inbound outbound trace] in Hstep;
    try discriminate.
  - (* a client frame, while active cfg *)
    destruct i as [[|]| |]; try discriminate.
    destruct (pump_received_actions (open_session cfg) r) as [Hacts Hst];
      [discriminate|].
    destruct (client_to_gemini_received json_loads (open_session cfg) r) as [st acts'].
    apply some_inj in Hstep; subst s'. unfold with_inbound.
    cbn [handler session inbound outbound trace fst snd] in *.
    rewrite <- app_assoc. apply shape_active; auto.
    apply Forall_app; auto.
  - destruct i as [[|]| |]; try discriminate; contradiction.
  - (* an upstream write of the inbound pump completed *)
    destruct i as [[|]| |]; try discriminate.
    apply some_inj in Hstep; subst s'. unfold with_inbound.
    cbn [handler session inbound outbound trace]. rewrite app_nil_r.
    apply shape_active; auto.
    destruct r as [u|e]; [exact I|destruct e; exact I].
  - destruct i as [[|]| |]; try discriminate; contradiction.
  - (* an upstream message, while active cfg *)
    destruct o as [[|]| |]; try discriminate.
    destruct (pump_item_actions r) as [Hacts Hst].
    destruct (gemini_to_client_item json_loads r) as [st acts'].
    apply some_inj in Hstep; subst s'. unfold with_outbound.
    cbn [handler session inbound outbound trace fst snd] in *.
    rewrite <- app_assoc. apply shape_active; auto.
    apply Forall_app; auto.
  - destruct o as [[|]| |]; try discriminate; contradiction.
  - (* a client write of the outbound pump completed *)
    destruct o as [[|]| |]; try discriminate.
    apply some_inj in Hstep; subst s'. unfold with_outbound.
    cbn [handler session inbound outbound trace]. rewrite app_nil_r.
    apply shape_active; auto.
    destruct r as [u|e]; exact I.
  - destruct o as [[|]| |]; try discriminate; contradiction.
  - (* a cancellation is delivered: no task is cancelling while active cfg *)
    destruct i as [[|]| |]; try discriminate; contradiction.
  - destruct i as [[|]| |]; try discriminate.
    apply some_inj in Hstep; subst s'. unfold with_inbound.
    cbn [handler session inbound outbound trace]. rewrite app_nil_r.
    apply shape_closing; auto; exact I.
  - destruct o as [[|]| |]; try discriminate; contradiction.
  - destruct o as [[|]| |]; try discriminate.
    apply some_inj in Hstep; subst s'. unfold with_outbound.
    cbn [handler session inbound outbound trace]. rewrite app_nil_r.
    apply shape_closing; auto; exact I.
Qed.

Lemma exec_shape (evs : list Event) :
  forall s s', Shape cfg s -> exec json_loads cfg s evs = Some s' -> Shape cfg s'.
Proof.
  induction evs as [|ev rest IH]; intros s s' Hs Hrun; cbn [exec] in Hrun.
  - apply some_inj in Hrun. now subst.
  - destruct (step json_loads cfg s ev) as [s1|] eqn:Hstep; [|discriminate].
    exact (IH s1 s' (step_shape s s1 ev Hs Hstep) Hrun).
Qed.

Lemma ws_endpoint_shape : Shape cfg ws_endpoint.
Proof. apply (shape_accept cfg AtAccept). auto. Qed.

(** Every state of a run from the entry of the endpoint has a known shape. *)
Lemma run_shape (evs : list Event) (s : State) :
  exec json_loads cfg ws_endpoint evs = Some s -> Shape cfg s.
Proof. apply exec_shape, ws_endpoint_shape. Qed.


Lemma upstream_closes_app (a b : list Action) :
  upstream_closes (a ++ b) = upstream_closes a + upstream_closes b.
Proof. unfold upstream_closes. now rewrite filter_app, length_app. Qed.

Lemma pump_no_close (acts : list Action) :
  Forall pump_action acts -> upstream_closes acts = 0.
Proof.
  induction 1 as [|a l Ha _ IH]; [reflexivity|].
  change (a :: l) with ([a] ++ l). rewrite upstream_closes_app, IH.
  destruct Ha; reflexivity.
Qed.

Lemma pump_no_connect (acts : list Action) :
  Forall pump_action acts -> upstream_connects acts = [].
Proof.
  induction 1 as [|a l Ha _ IH]; [reflexivity|].
  unfold upstream_connects in *. cbn [flat_map]. rewrite IH.
  destruct Ha; reflexivity.
Qed.

Lemma active_closes : upstream_closes (active_trace cfg) = 0.
Proof. reflexivity. Qed.

Lemma active_frames :
  upstream_frames (active_trace cfg) = [dumps (setup_message (fresh_session cfg))].
Proof. reflexivity. Qed.

Lemma active_connects :
  upstream_connects (active_trace cfg) =
  [((GEMINI_LIVE_WS ++ "?key=" ++ key_of (API_KEY cfg))%string, max_size)].
Proof. reflexivity. Qed.

(** While a pump is suspended at an [await] the handler is at
    [asyncio.wait] and the session is connected. *)
Lemma pending_is_active (s : State) :
  Shape cfg s ->
  is_pending (inbound s) = true \/ is_pending (outbound s) = true ->
  exists i o acts,
    s = {| handler := AtWait; session := Some (open_session cfg); inbound := Some i;
           outbound := Some o; trace := active_trace cfg ++ acts |}
    /\ Forall pump_action acts.
Proof.
  intros Hs Hp. destruct Hs; cbn [inbound outbound is_pending] in Hp;
    try (destruct Hp; discriminate).
  - exists i, o, acts. auto.
  - destruct i, o; cbn in *; try contradiction; destruct Hp; discriminate.
Qed.


Lemma in_upstream_connects (tr : list Action) (url : string) (limit : Z) :
  In (UpstreamConnect url limit) tr -> In (url, limit) (upstream_connects tr).
Proof.
  intros Hin. unfold upstream_connects. apply in_flat_map.
  exists (UpstreamConnect url limit). split; [exact Hin|left; reflexivity].
Qed.

Lemma upstream_frames_app (a b : list Action) :
  upstream_frames (a ++ b) = upstream_frames a ++ upstream_frames b.
Proof. apply flat_map_app. Qed.

Lemma upstream_connects_app (a b : list Action) :
  upstream_connects (a ++ b) = upstream_connects a ++ upstream_connects b.
Proof. apply flat_map_app. Qed.

Lemma present_key :
  missing_key (API_KEY cfg) = false ->
  exists key, API_KEY cfg = Some key /\ key_of (API_KEY cfg) = key.
Proof.
  destruct (API_KEY cfg) as [key|]; [|discriminate]. intros _. now exists key.
Qed.

Lemma shape_connects (s : State) :
  Shape cfg s ->
  upstream_connects (trace s) = [] \/
  (missing_key (API_KEY cfg) = false /\
   upstream_connects (trace s) =
     [((GEMINI_LIVE_WS ++ "?key=" ++ key_of (API_KEY cfg))%string, max_size)]).
Proof.
  intros Hs. destruct Hs; cbn [trace]; try (left; reflexivity);
    right; (split; [assumption|]); try reflexivity.
  - rewrite upstream_connects_app, active_connects, pump_no_connect by assumption.
    reflexivity.
  - rewrite !upstream_connects_app, active_connects, pump_no_connect by assumption.
    reflexivity.
Qed.

Lemma shape_frames (s : State) (sess : GeminiLiveSession) :
  Shape cfg s -> session s = Some sess -> ws sess <> None ->
  exists later,
    upstream_frames (trace s) = dumps (setup_message (fresh_session cfg)) :: later.
Proof.
  intros Hs Hsess Hws. destruct Hs; cbn [session trace] in *;
    try discriminate.
  - apply some_inj in Hsess. subst sess. now contradiction Hws.
  - exists []. reflexivity.
  - exists (upstream_frames acts).
    now rewrite upstream_frames_app, active_frames.
  - exists (upstream_frames acts ++ upstream_frames teardown_trace).
    now rewrite !upstream_frames_app, active_frames.
Qed.

(** C7: the upstream URL is the fixed base path followed by [?key=] and the
    credential, the limit on the size of a frame is 32 MiB or more, and once
    the handshake is done the first frame written upstream is the setup frame
    for the configured model. *)
Theorem connect_url_limit_and_setup_first (evs : list Event) (s : State) :
  exec json_loads cfg ws_endpoint evs = Some s ->
  (forall url limit,
      In (UpstreamConnect url limit) (trace s) ->
      exists key,
        API_KEY cfg = Some key /\
        url = (GEMINI_LIVE_WS ++ "?key=" ++ key)%string /\
        (32 * 2 ^ 20 <= limit)%Z)
  /\ (forall sess,
        session s = Some sess -> ws sess <> None ->
        exists later,
          upstream_frames (trace s) =
          dumps (JObj [("setup", JObj [
                   ("model", JStr (MODEL_ID cfg));
                   ("response", JObj [
                      ("modalities", JArr [JStr "AUDIO"; JStr "TEXT"]);
                      ("instructions", JStr "You are a helpful assistant.")])])])
          :: later).
Proof.
  intros Hrun. apply run_shape in Hrun. split.
  - intros url limit Hin. apply in_upstream_connects in Hin.
    destruct (shape_connects s Hrun) as [Hnone|[Hkey Hone]].
    + rewrite Hnone in Hin. destruct Hin.
    + rewrite Hone in Hin. destruct Hin as [Heq|[]].
      destruct (present_key Hkey) as [key [Hcfg Hof]].
      exists key. injection Heq as <- <-. rewrite Hof.
      repeat split; [exact Hcfg|]. unfold max_size. lia.
  - intros sess Hsess Hws. exact (shape_frames s sess Hrun Hsess Hws).
Qed.


(** *** A trace only grows, and only the handler changes the handler *)

Ltac break_step H :=
  repeat match type of H with
         | None = Some _ => discriminate H
         | context [match ?x with _ => _ end] => destruct x eqn:?
         | context [if ?b then _ else _] => destruct b eqn:?
         | (let '(_, _) := ?p in _) = _ => destruct p eqn:?
         end.

Lemma resume_trace (s s' : State) (r : result unit) :
  ws_endpoint_resume cfg s r = Some s' -> exists acts, trace s' = trace s ++ acts.
Proof.
  intros H. unfold ws_endpoint_resume, teardown, with_handler in H.
  break_step H; apply some_inj in H; subst s'; cbn [trace]; eauto.
Qed.

Lemma step_trace (s s' : State) (ev : Event) :
  step json_loads cfg s ev = Some s' -> exists acts, trace s' = trace s ++ acts.
Proof.
  intros H. destruct ev as [r|r|r|r|r|[|]]; [exact (resume_trace s s' r H)|..];
    unfold step, with_inbound, with_outbound in H;
    break_step H; apply some_inj in H; subst s'; cbn [trace]; eauto.
Qed.

Lemma exec_trace (evs : list Event) :
  forall s s', exec json_loads cfg s evs = Some s' ->
               exists acts, trace s' = trace s ++ acts.
Proof.
  induction evs as [|ev rest IH]; intros s s' H; cbn [exec] in H.
  - apply some_inj in H. subst s'. exists []. now rewrite app_nil_r.
  - destruct (step json_loads cfg s ev) as [s1|] eqn:Hstep; [|discriminate].
    destruct (step_trace s s1 ev Hstep) as [a1 H1].
    destruct (IH s1 s' H) as [a2 H2].
    exists (a1 ++ a2). now rewrite H2, H1, app_assoc.
Qed.

Lemma step_handler (s s' : State) (ev : Event) :
  step json_loads cfg s ev = Some s' ->
  handler s' = handler s \/ exists r, ev = Handler r.
Proof.
  intros H. destruct ev as [r|r|r|r|r|[|]]; [right; now exists r|..]; left;
    unfold step, with_inbound, with_outbound in H;
    break_step H; apply some_inj in H; subst s'; reflexivity.
Qed.

(** Once the handler has ended, no completion is awaited but those of the
    tasks it left behind. *)
Lemma ended_resume (s : State) (r : result unit) :
  ended (handler s) -> ws_endpoint_resume cfg s r = None.
Proof.
  intros [H|[e H]]; unfold ws_endpoint_resume; rewrite H; reflexivity.
Qed.


(** *** The path without a credential *)

Lemma accept_without_key (u : unit) :
  missing_key (API_KEY cfg) = true ->
  step json_loads cfg ws_endpoint (Handler (Ok u)) = Some error_sent.
Proof.
  intros Hkey. cbn [step]. unfold ws_endpoint_resume. cbn [handler ws_endpoint].
  rewrite Hkey. reflexivity.
Qed.

Lemma shape_without_key (s : State) :
  missing_key (API_KEY cfg) = true -> Shape cfg s ->
  session s = None /\ inbound s = None /\ outbound s = None /\
  (trace s = [ClientAccept]
   \/ (trace s = [ClientAccept; ClientSendJson error_frame] /\ handler s <> HReturned)
   \/ trace s = [ClientAccept; ClientSendJson error_frame; ClientClose]).
Proof.
  intros Hkey Hs. destruct Hs; try congruence; cbn [session inbound outbound trace handler];
    repeat split; auto.
  right; left. split; [reflexivity|]. split_pc; discriminate.
Qed.

(** C2: when the credential is absent, an accepted connection is sent the one
    frame [{"error": "Missing GOOGLE_API_KEY"}] and nothing else, it is closed
    once that frame is written, and no upstream session is constructed or
    connected. *)
Theorem missing_key_error_then_close (evs : list Event) (s : State) :
  missing_key (API_KEY cfg) = true ->
  exec json_loads cfg ws_endpoint (Handler (Ok tt) :: evs) = Some s ->
  session s = None /\ inbound s = None /\ outbound s = None /\
  (trace s = [ClientAccept;
              ClientSendJson (JObj [("error", JStr "Missing GOOGLE_API_KEY")])]
   \/ trace s = [ClientAccept;
                 ClientSendJson (JObj [("error", JStr "Missing GOOGLE_API_KEY")]);
                 ClientClose]) /\
  (handler s = HReturned \/ (exists u rest, evs = Handler (Ok u) :: rest) ->
   trace s = [ClientAccept;
              ClientSendJson (JObj [("error", JStr "Missing GOOGLE_API_KEY")]);
              ClientClose]).
Proof.
  intros Hkey Hrun. cbn [exec] in Hrun.
  rewrite (accept_without_key tt Hkey) in Hrun.
  assert (Hshape : Shape cfg s).
  { apply (exec_shape evs error_sent s); [|exact Hrun].
    apply (shape_error_send cfg AtErrorSend); auto. }
  destruct (shape_without_key s Hkey Hshape) as (Hsess & Hin & Hout & Htr).
  destruct (exec_trace evs error_sent s Hrun) as [acts Hacts].
  cbn [trace error_sent] in Hacts.
  repeat split; auto.
  - destruct Htr as [Htr|[[Htr _]|Htr]]; auto.
    rewrite Htr in Hacts. discriminate.
  - intros [Hret|(u & rest & ->)].
    + destruct Htr as [Htr|[[_ Hne]|Htr]]; auto; [|contradiction].
      rewrite Htr in Hacts. discriminate.
    + cbn [exec step] in Hrun. unfold ws_endpoint_resume in Hrun.
      cbn [handler error_sent] in Hrun.
      destruct (exec_trace rest _ s Hrun) as [more Hmore].
      cbn [trace with_handler error_sent app] in Hmore.
      destruct Htr as [Htr|[[Htr _]|Htr]]; auto; rewrite Htr in Hmore; discriminate.
Qed.


(** *** A failure of [connect] *)

Lemma accept_with_key (u : unit) :
  missing_key (API_KEY cfg) = false ->
  step json_loads cfg ws_endpoint (Handler (Ok u)) = Some (connecting cfg).
Proof.
  intros Hkey. cbn [step]. unfold ws_endpoint_resume. cbn [handler ws_endpoint].
  rewrite Hkey. reflexivity.
Qed.

Lemma handshake_done (u : unit) :
  step json_loads cfg (connecting cfg) (Handler (Ok u)) = Some (setting_up cfg).
Proof. reflexivity. Qed.

Lemma ended_idle (s : State) (ev : Event) :
  ended (handler s) -> inbound s = None -> outbound s = None ->
  step json_loads cfg s ev = None.
Proof.
  intros Hend Hin Hout. destruct ev as [r|r|r|r|r|[|]]; cbn [step];
    rewrite ?Hin, ?Hout; try reflexivity.
  now apply ended_resume.
Qed.

Lemma ended_idle_run (s s' : State) (evs : list Event) :
  ended (handler s) -> inbound s = None -> outbound s = None ->
  exec json_loads cfg s evs = Some s' -> evs = [] /\ s' = s.
Proof.
  intros Hend Hin Hout Hrun. destruct evs as [|ev rest]; cbn [exec] in Hrun.
  - apply some_inj in Hrun. auto.
  - rewrite (ended_idle s ev Hend Hin Hout) in Hrun. discriminate.
Qed.

(** C5, as amended: when [connect] fails, at the handshake or at the write of
    the setup frame, the endpoint ends by raising that error: no frame at all
    has been sent to the client, no pump was created, nothing more happens,
    and the endpoint has not itself closed the client connection. *)
Theorem connect_failure_raises (e : exn) (evs : list Event) (s : State) :
  missing_key (API_KEY cfg) = false ->
  exec json_loads cfg ws_endpoint (Handler (Ok tt) :: Handler (Raise e) :: evs) = Some s
  \/ exec json_loads cfg ws_endpoint
       (Handler (Ok tt) :: Handler (Ok tt) :: Handler (Raise e) :: evs) = Some s ->
  evs = [] /\ handler s = HRaised e /\
  inbound s = None /\ outbound s = None /\
  client_frames (trace s) = [] /\ client_closes (trace s) = 0.
Proof.
  intros Hkey [Hrun|Hrun]; cbn [exec] in Hrun;
    rewrite (accept_with_key tt Hkey) in Hrun.
  - change (step json_loads cfg (connecting cfg) (Handler (Raise e)))
      with (Some (with_handler (connecting cfg) (HRaised e) [])) in Hrun.
    apply ended_idle_run in Hrun; [|right; now exists e|reflexivity..].
    destruct Hrun as [-> ->]. repeat split; reflexivity.
  - rewrite handshake_done in Hrun.
    change (step json_loads cfg (setting_up cfg) (Handler (Raise e)))
      with (Some (with_handler (setting_up cfg) (HRaised e) [])) in Hrun.
    apply ended_idle_run in Hrun; [|right; now exists e|reflexivity..].
    destruct Hrun as [-> ->]. repeat split; reflexivity.
Qed.


(** *** Teardown *)

Lemma wait_returns (i : Status InboundPc) (o : Status OutboundPc) (acts : list Action)
  (u : unit) :
  is_finished (Some i) || is_finished (Some o) = true ->
  step json_loads cfg (active cfg i o acts) (Handler (Ok u)) =
  Some (closing cfg AtClose (cancel i) (cancel o) acts).
Proof.
  intros Hfin. cbn [step]. unfold ws_endpoint_resume.
  cbn [handler inbound outbound session active]. rewrite Hfin. reflexivity.
Qed.

Lemma wait_blocks (i : Status InboundPc) (o : Status OutboundPc) (acts : list Action)
  (r : result unit) :
  is_finished (Some i) || is_finished (Some o) = false ->
  step json_loads cfg (active cfg i o acts) (Handler r) = None.
Proof.
  intros Hfin. cbn [step]. unfold ws_endpoint_resume.
  cbn [handler inbound outbound session active]. rewrite Hfin.
  destruct r; reflexivity.
Qed.

Lemma close_returns (i : Status InboundPc) (o : Status OutboundPc) (acts : list Action)
  (u : unit) :
  step json_loads cfg (closing cfg AtClose i o acts) (Handler (Ok u)) =
  Some (closing cfg HReturned i o acts).
Proof.
  cbn [step]. unfold ws_endpoint_resume, with_handler, closing.
  cbn [handler inbound outbound session trace]. now rewrite app_nil_r.
Qed.

Lemma cancel_not_pending {pc} (st : Status pc) : is_pending (Some (cancel st)) = false.
Proof. destruct st; reflexivity. Qed.

Lemma closing_closes (pc : HandlerPc) (i : Status InboundPc) (o : Status OutboundPc)
  (acts : list Action) :
  Forall pump_action acts -> upstream_closes (trace (closing cfg pc i o acts)) = 1.
Proof.
  intros Hacts. cbn [trace closing].
  now rewrite !upstream_closes_app, active_closes, (pump_no_close acts Hacts).
Qed.

Lemma shape_closes (s : State) : Shape cfg s -> upstream_closes (trace s) <= 1.
Proof.
  intros Hs. destruct Hs; cbn [trace]; try (cbv; lia).
  - rewrite upstream_closes_app, active_closes, pump_no_close by assumption. lia.
  - rewrite !upstream_closes_app, active_closes, pump_no_close by assumption.
    cbn. lia.
Qed.

Lemma shape_after_teardown (s : State) :
  Shape cfg s ->
  handler s = AtClose \/ (ended (handler s) /\ inbound s <> None) ->
  exists pc i o acts,
    s = closing cfg pc i o acts /\ Forall pump_action acts /\
    not_pending i /\ not_pending o.
Proof.
  intros Hs Hpc.
  destruct Hs as [pc Hp|pc Hk Hp|pc Hk Hp|pc Hk Hp|pc Hk Hp|i o acts Hk Hi Ho Ha
                 |pc i o acts Hk Hp Hi Ho Ha];
    cbn [handler inbound] in Hpc.
  1-5: destruct Hpc as [->|[_ Hin]]; [split_pc; discriminate|congruence].
  - destruct Hpc as [Hpc|[[Hpc|[e Hpc]] _]]; discriminate.
  - now exists pc, i, o, acts.
Qed.

(** C1, as amended: the handler stays at [asyncio.wait] until a pump is done;
    whichever pump that is, and also when both are done by then, it asks both
    tasks to cancel and closes the upstream session, which is closed exactly
    once in the lifetime of the relay.  The tasks are not awaited. *)
Theorem teardown_cancels_and_closes_once (evs : list Event) (s : State) :
  exec json_loads cfg ws_endpoint evs = Some s ->
  upstream_closes (trace s) <= 1 /\
  (handler s = AtWait ->
   (is_finished (inbound s) || is_finished (outbound s) = false ->
    forall r, step json_loads cfg s (Handler r) = None) /\
   (is_finished (inbound s) || is_finished (outbound s) = true ->
    exists s',
      step json_loads cfg s (Handler (Ok tt)) = Some s' /\
      handler s' = AtClose /\
      trace s' = trace s ++ [CancelTask ClientToGemini; CancelTask GeminiToClient;
                             UpstreamClose] /\
      inbound s' = option_map cancel (inbound s) /\
      outbound s' = option_map cancel (outbound s) /\
      is_pending (inbound s') = false /\ is_pending (outbound s') = false /\
      upstream_closes (trace s') = 1)) /\
  (handler s = AtClose \/ (ended (handler s) /\ inbound s <> None) ->
   upstream_closes (trace s) = 1 /\
   is_pending (inbound s) = false /\ is_pending (outbound s) = false /\
   exists before,
     trace s = before ++ [CancelTask ClientToGemini; CancelTask GeminiToClient;
                          UpstreamClose]).
Proof.
  intros Hrun. apply run_shape in Hrun. split; [now apply shape_closes|].
  split.
  - intros Hwait. destruct Hrun; cbn [handler] in Hwait; split_pc; try discriminate.
    fold (active cfg i o acts). split.
    + intros Hfin r. now apply wait_blocks.
    + intros Hfin. exists (closing cfg AtClose (cancel i) (cancel o) acts).
      split; [now apply wait_returns|].
      repeat split; try apply cancel_not_pending.
      now apply closing_closes.
  - intros Hpc.
    destruct (shape_after_teardown s Hrun Hpc) as (pc & i & o & acts & -> & Ha & Hi & Ho).
    split; [now apply closing_closes|].
    split; [destruct i; [contradiction|reflexivity..]|].
    split; [destruct o; [contradiction|reflexivity..]|].
    now exists (active_trace cfg ++ acts).
Qed.


(** *** Errors of the pumps stay in their tasks *)

Lemma resume_raised (s s' : State) (r : result unit) (e : exn) :
  ws_endpoint_resume cfg s r = Some s' -> handler s' = HRaised e -> r = Raise e.
Proof.
  intros H He. unfold ws_endpoint_resume, teardown, with_handler in H.
  break_step H; apply some_inj in H; subst s'; cbn [handler] in He;
    try discriminate; congruence.
Qed.

Lemma exec_raised (evs : list Event) :
  forall s s' e,
    exec json_loads cfg s evs = Some s' -> handler s' = HRaised e ->
    handler s = HRaised e \/ In (Handler (Raise e)) evs.
Proof.
  induction evs as [|ev rest IH]; intros s s' e Hrun He; cbn [exec] in Hrun.
  - apply some_inj in Hrun. subst s'. now left.
  - destruct (step json_loads cfg s ev) as [s1|] eqn:Hstep; [|discriminate].
    destruct (IH s1 s' e Hrun He) as [H1|Hin]; [|right; now right].
    destruct (step_handler s s1 ev Hstep) as [Hsame|[r ->]]; [left; congruence|].
    right; left. f_equal. exact (resume_raised s s1 r e Hstep H1).
Qed.

Lemma shape_pending_outbound (s : State) (at_await : OutboundPc) :
  Shape cfg s -> outbound s = Some (Pending at_await) ->
  exists i acts, s = active cfg i (Pending at_await) acts /\ Forall pump_action acts.
Proof.
  intros Hs Hout.
  destruct (pending_is_active s Hs) as (i & o & acts & -> & Ha).
  - right. now rewrite Hout.
  - cbn [outbound] in Hout. apply some_inj in Hout. subst o. now exists i, acts.
Qed.

Lemma shape_pending_inbound (s : State) (at_await : InboundPc) :
  Shape cfg s -> inbound s = Some (Pending at_await) ->
  exists o acts, s = active cfg (Pending at_await) o acts /\ Forall pump_action acts.
Proof.
  intros Hs Hin.
  destruct (pending_is_active s Hs) as (i & o & acts & -> & Ha).
  - left. now rewrite Hin.
  - cbn [inbound] in Hin. apply some_inj in Hin. subst i. now exists o, acts.
Qed.

(** C6: an error raised by [send_json] in the outbound pump ends that task
    and nothing else: the handler is still at [asyncio.wait], it then tears
    the session down and returns, and whatever happens next the endpoint can
    only raise an error of a call it awaits itself. *)
Theorem outbound_send_error_swallowed (evs : list Event) (s : State) (e : exn) :
  exec json_loads cfg ws_endpoint evs = Some s ->
  outbound s = Some (Pending OutSend) ->
  exists s1 s2 s3,
    step json_loads cfg s (ClientSent (Raise e)) = Some s1 /\
    handler s1 = AtWait /\ outbound s1 = Some (Finished (Raised e)) /\
    inbound s1 = inbound s /\ trace s1 = trace s /\
    step json_loads cfg s1 (Handler (Ok tt)) = Some s2 /\ handler s2 = AtClose /\
    step json_loads cfg s2 (Handler (Ok tt)) = Some s3 /\ handler s3 = HReturned /\
    (forall later s' e',
        exec json_loads cfg s1 later = Some s' -> handler s' = HRaised e' ->
        In (Handler (Raise e')) later).
Proof.
  intros Hrun Hout. apply run_shape in Hrun.
  destruct (shape_pending_outbound s OutSend Hrun Hout) as (i & acts & -> & Ha).
  exists (active cfg i (Finished (Raised e)) acts),
         (closing cfg AtClose (cancel i) (Finished (Raised e)) acts),
         (closing cfg HReturned (cancel i) (Finished (Raised e)) acts).
  split.
  { cbn [step]. unfold with_outbound, active.
    cbn [outbound handler session inbound trace gemini_to_client_sent].
    now rewrite app_nil_r. }
  repeat split.
  - apply (wait_returns i (Finished (Raised e)) acts tt).
    cbn [is_finished]. apply orb_true_r.
  - apply close_returns.
  - intros later s' e' Hlater He'.
    destruct (exec_raised later _ s' e' Hlater He') as [Habs|Hin]; [discriminate|exact Hin].
Qed.


(** *** The inbound pump on one frame *)

Lemma frame_step (o : Status OutboundPc) (acts : list Action) (r : result string) :
  step json_loads cfg (active cfg (Pending InReceive) o acts) (ClientFrame r) =
  Some (with_inbound (active cfg (Pending InReceive) o acts)
          (fst (client_to_gemini_received json_loads (open_session cfg) r))
          (snd (client_to_gemini_received json_loads (open_session cfg) r))).
Proof.
  cbn [step inbound session active].
  now destruct (client_to_gemini_received json_loads (open_session cfg) r).
Qed.

Lemma received_text (msg : string) (data text : json) :
  json_loads msg = Some data ->
  subscript data "type" = Ok (JStr "text") ->
  subscript data "text" = Ok text ->
  client_to_gemini_received json_loads (open_session cfg) (Ok msg) =
  (Pending InSend, [UpstreamSend (dumps (user_text_event text))]).
Proof.
  intros Hloads Hty Htext.
  unfold client_to_gemini_received, client_to_gemini_dispatch, loads.
  rewrite Hloads. cbn [bind]. rewrite Hty. cbn [bind py_eq_str].
  rewrite String.eqb_refl, Htext. reflexivity.
Qed.

Lemma received_audio (msg : string) (data b64 : json) (pcm16 : list byte) :
  json_loads msg = Some data ->
  subscript data "type" = Ok (JStr "audio") ->
  subscript data "pcm16" = Ok b64 ->
  b64decode_value b64 = Ok pcm16 ->
  client_to_gemini_received json_loads (open_session cfg) (Ok msg) =
  (Pending InSend, [UpstreamSend (dumps (user_audio_event pcm16))]).
Proof.
  intros Hloads Hty Hpcm Hdec.
  unfold client_to_gemini_received, client_to_gemini_dispatch, loads.
  rewrite Hloads. cbn [bind]. rewrite Hty. cbn [bind py_eq_str].
  change (String.eqb "audio" "text") with false.
  rewrite String.eqb_refl, Hpcm. cbn [bind]. rewrite Hdec. reflexivity.
Qed.

Lemma py_eq_str_false (v : json) (lit : string) :
  v <> JStr lit -> py_eq_str v lit = false.
Proof.
  intros Hne. destruct v; try reflexivity. cbn [py_eq_str].
  apply String.eqb_neq. congruence.
Qed.

Lemma received_other (msg : string) (data ty : json) :
  json_loads msg = Some data ->
  subscript data "type" = Ok ty ->
  ty <> JStr "text" -> ty <> JStr "audio" ->
  client_to_gemini_received json_loads (open_session cfg) (Ok msg) =
  (Pending InReceive, []).
Proof.
  intros Hloads Hty Htext Haudio.
  unfold client_to_gemini_received, client_to_gemini_dispatch, loads.
  rewrite Hloads. cbn [bind]. rewrite Hty. cbn [bind].
  now rewrite (py_eq_str_false ty "text" Htext), (py_eq_str_false ty "audio" Haudio).
Qed.

Lemma lacks_raises (data : json) (key : string) :
  lacks data key ->
  exists e, subscript data key = Raise e /\ except_disconnect e = Raised e.
Proof.
  intros Hl. destruct data; cbn [subscript lacks] in *;
    try (exists TypeError; split; reflexivity).
  rewrite Hl. exists (KeyError key). split; reflexivity.
Qed.

Lemma received_malformed (msg : string) :
  malformed json_loads msg ->
  exists e,
    client_to_gemini_received json_loads (open_session cfg) (Ok msg) =
    (Finished (Raised e), []) /\ e <> WebSocketDisconnect.
Proof.
  unfold malformed, client_to_gemini_received, client_to_gemini_dispatch, loads.
  intros [Hnone|(data & Hloads & [Hty|[[Hty Hl]|[Hty Hl]]])].
  - rewrite Hnone. now exists JSONDecodeError.
  - rewrite Hloads. cbn [bind].
    destruct (lacks_raises data "type" Hty) as (e & -> & He). cbn [bind].
    rewrite He. exists e. split; [reflexivity|]. intros ->. discriminate.
  - rewrite Hloads. cbn [bind]. rewrite Hty. cbn [bind py_eq_str].
    rewrite String.eqb_refl.
    destruct (lacks_raises data "text" Hl) as (e & -> & He). cbn [bind].
    rewrite He. exists e. split; [reflexivity|]. intros ->. discriminate.
  - rewrite Hloads. cbn [bind]. rewrite Hty. cbn [bind py_eq_str].
    change (String.eqb "audio" "text") with false. rewrite String.eqb_refl.
    destruct (lacks_raises data "pcm16" Hl) as (e & -> & He). cbn [bind].
    rewrite He. exists e. split; [reflexivity|]. intros ->. discriminate.
Qed.


(** C3: on a frame of type [audio] whose [pcm16] is base64 that decodes, the
    inbound pump calls [send_user_audio] with the decoded bytes, and the frame
    written upstream is the serialization of the [audio/pcm;rate=16000] input
    event; its [data] decodes to those same bytes, which are the bytes the
    client encoded. *)
Theorem audio_frame_forwarded (evs : list Event) (s : State) (msg b64 : string)
  (data : json) (pcm16 : list byte) :
  exec json_loads cfg ws_endpoint evs = Some s ->
  inbound s = Some (Pending InReceive) ->
  json_loads msg = Some data ->
  subscript data "type" = Ok (JStr "audio") ->
  subscript data "pcm16" = Ok (JStr b64) ->
  Base64.b64decode b64 = Ok pcm16 ->
  exists sess s',
    session s = Some sess /\
    send_user_audio sess pcm16 =
      Ok (UpstreamSend (dumps (JObj [("input", JObj [("audio", JObj [
            ("mime_type", JStr "audio/pcm;rate=16000");
            ("data", JStr (Base64.b64encode pcm16))])])]))) /\
    step json_loads cfg s (ClientFrame (Ok msg)) = Some s' /\
    inbound s' = Some (Pending InSend) /\
    trace s' = trace s ++
      [UpstreamSend (dumps (JObj [("input", JObj [("audio", JObj [
            ("mime_type", JStr "audio/pcm;rate=16000");
            ("data", JStr (Base64.b64encode pcm16))])])]))] /\
    Base64.b64decode (Base64.b64encode pcm16) = Ok pcm16 /\
    (forall raw, b64 = Base64.b64encode raw -> pcm16 = raw).
Proof.
  intros Hrun Hin Hloads Hty Hpcm Hdec. apply run_shape in Hrun.
  destruct (shape_pending_inbound s InReceive Hrun Hin) as (o & acts & -> & Ha).
  exists (open_session cfg). eexists.
  split; [reflexivity|]. split; [reflexivity|].
  split.
  { rewrite frame_step, (received_audio msg data (JStr b64) pcm16 Hloads Hty Hpcm Hdec).
    reflexivity. }
  repeat split.
  - apply Base64Facts.b64decode_b64encode.
  - intros raw ->. rewrite Base64Facts.b64decode_b64encode in Hdec. congruence.
Qed.

(** C4: on a frame of type [text] the inbound pump writes upstream the
    serialization of [{"input": {"text": s}}], and for an event [e] read from
    the upstream stream the outbound pump sends the client the one envelope
    [{"type": "gemini", "data": e}], with [e] as it was decoded. *)
Theorem text_and_events_relayed (evs : list Event) (s : State) :
  exec json_loads cfg ws_endpoint evs = Some s ->
  (forall msg data text,
      inbound s = Some (Pending InReceive) ->
      json_loads msg = Some data ->
      subscript data "type" = Ok (JStr "text") ->
      subscript data "text" = Ok text ->
      exists s',
        step json_loads cfg s (ClientFrame (Ok msg)) = Some s' /\
        inbound s' = Some (Pending InSend) /\
        trace s' = trace s ++
          [UpstreamSend (dumps (JObj [("input", JObj [("text", text)])]))]) /\
  (forall msg evt,
      outbound s = Some (Pending OutNext) ->
      json_loads msg = Some evt ->
      exists s',
        step json_loads cfg s (UpstreamItem (Message msg)) = Some s' /\
        outbound s' = Some (Pending OutSend) /\
        trace s' = trace s ++
          [ClientSendJson (JObj [("type", JStr "gemini"); ("data", evt)])]).
Proof.
  intros Hrun. apply run_shape in Hrun. split.
  - intros msg data text Hin Hloads Hty Htext.
    destruct (shape_pending_inbound s InReceive Hrun Hin) as (o & acts & -> & Ha).
    eexists. split.
    { rewrite frame_step, (received_text msg data text Hloads Hty Htext). reflexivity. }
    split; reflexivity.
  - intros msg evt Hout Hloads.
    destruct (shape_pending_outbound s OutNext Hrun Hout) as (i & acts & -> & Ha).
    eexists. split.
    { cbn [step outbound active]. unfold gemini_to_client_item, loads.
      rewrite Hloads. reflexivity. }
    split; reflexivity.
Qed.

(** C9: a frame that decodes and whose [type] is neither [text] nor [audio]
    changes nothing: nothing is written upstream, nothing is raised, and the
    pump is back at [receive_text]. *)
Theorem unknown_type_dropped (evs : list Event) (s : State) (msg : string)
  (data ty : json) :
  exec json_loads cfg ws_endpoint evs = Some s ->
  inbound s = Some (Pending InReceive) ->
  json_loads msg = Some data ->
  subscript data "type" = Ok ty ->
  ty <> JStr "text" -> ty <> JStr "audio" ->
  step json_loads cfg s (ClientFrame (Ok msg)) = Some s.
Proof.
  intros Hrun Hin Hloads Hty Htext Haudio. apply run_shape in Hrun.
  destruct (shape_pending_inbound s InReceive Hrun Hin) as (o & acts & -> & Ha).
  rewrite frame_step, (received_other msg data ty Hloads Hty Htext Haudio).
  unfold with_inbound, active. cbn [fst snd handler session inbound outbound trace].
  now rewrite app_nil_r.
Qed.

(** C10: on a malformed frame the inbound pump ends with an exception that
    [except WebSocketDisconnect] does not catch; the handler then leaves
    [asyncio.wait], asks both tasks to cancel, so that the outbound pump is
    no longer pending, and closes the upstream session. *)
Theorem malformed_frame_tears_down (evs : list Event) (s : State) (msg : string) :
  exec json_loads cfg ws_endpoint evs = Some s ->
  inbound s = Some (Pending InReceive) ->
  malformed json_loads msg ->
  exists e s1 s2,
    step json_loads cfg s (ClientFrame (Ok msg)) = Some s1 /\
    inbound s1 = Some (Finished (Raised e)) /\ e <> WebSocketDisconnect /\
    outbound s1 = outbound s /\ trace s1 = trace s /\
    step json_loads cfg s1 (Handler (Ok tt)) = Some s2 /\
    handler s2 = AtClose /\
    outbound s2 = option_map cancel (outbound s) /\
    is_pending (outbound s2) = false /\
    trace s2 = trace s ++ [CancelTask ClientToGemini; CancelTask GeminiToClient;
                           UpstreamClose].
Proof.
  intros Hrun Hin Hbad. apply run_shape in Hrun.
  destruct (shape_pending_inbound s InReceive Hrun Hin) as (o & acts & -> & Ha).
  destruct (received_malformed msg Hbad) as (e & Hrecv & He).
  exists e, (active cfg (Finished (Raised e)) o acts),
         (closing cfg AtClose (Finished (Raised e)) (cancel o) acts).
  split.
  { rewrite frame_step, Hrecv. unfold with_inbound, active.
    cbn [fst snd handler session inbound outbound trace]. now rewrite app_nil_r. }
  split; [reflexivity|]. split; [exact He|].
  split; [reflexivity|]. split; [reflexivity|].
  split; [now apply (wait_returns (Finished (Raised e)) o acts tt)|].
  split; [reflexivity|]. split; [reflexivity|].
  split; [apply cancel_not_pending|reflexivity].
Qed.

(** C8: [close] on a session that was never connected does nothing and
    raises nothing, and a second [close] leaves the session as the first
    one left it, its transport closed. *)
Theorem close_idempotent (self : GeminiLiveSession) (key model_id : string)
  (t : Transport) :
  close (new_session key model_id) = (new_session key model_id, []) /\
  fst (close (fst (close self))) = fst (close self) /\
  ws (fst (close self)) = option_map transport_close (ws self) /\
  ws (fst (close (set_ws self (Some t)))) = Some TransportClosed.
Proof.
  unfold close. repeat split.
  - destruct (ws self) as [t'|] eqn:Hws; cbn [fst set_ws ws].
    + reflexivity.
    + now rewrite Hws.
  - destruct (ws self) as [t'|] eqn:Hws; cbn [fst set_ws ws option_map]; auto.
Qed.


(** ** More on whole runs *)

Lemma client_frames_app (a b : list Action) :
  client_frames (a ++ b) = client_frames a ++ client_frames b.
Proof. apply flat_map_app. Qed.

Lemma client_closes_app (a b : list Action) :
  client_closes (a ++ b) = client_closes a + client_closes b.
Proof. unfold client_closes. now rewrite filter_app, length_app. Qed.

Lemma pump_no_client_close (acts : list Action) :
  Forall pump_action acts -> client_closes acts = 0.
Proof.
  induction 1 as [|a l Ha _ IH]; [reflexivity|].
  change (a :: l) with ([a] ++ l). rewrite client_closes_app, IH.
  destruct Ha; reflexivity.
Qed.

Lemma received_writes (sess : GeminiLiveSession) (r : result string) :
  client_frames (snd (client_to_gemini_received json_loads sess r)) = [].
Proof.
  unfold client_to_gemini_received. destruct r as [msg|e]; [|reflexivity].
  unfold client_to_gemini_dispatch, send_user_text, send_user_audio, ws_send.
  destruct (loads json_loads msg) as [data|e]; cbn [bind]; [|reflexivity].
  destruct (subscript data "type") as [ty|e]; cbn [bind]; [|reflexivity].
  destruct (py_eq_str ty "text").
  - destruct (subscript data "text") as [text|e]; cbn [bind]; [|reflexivity].
    destruct (ws sess); reflexivity.
  - destruct (py_eq_str ty "audio"); [|reflexivity].
    destruct (subscript data "pcm16") as [b64|e]; cbn [bind]; [|reflexivity].
    destruct (b64decode_value b64) as [pcm16|e]; cbn [bind]; [|reflexivity].
    destruct (ws sess); reflexivity.
Qed.

Lemma item_writes (r : StreamItem) :
  upstream_frames (snd (gemini_to_client_item json_loads r)) = [] /\
  client_frames (snd (gemini_to_client_item json_loads r)) =
    relayed json_loads (UpstreamItem r).
Proof.
  unfold gemini_to_client_item, relayed, loads.
  destruct r as [msg| |e]; [destruct (json_loads msg)|..]; split; reflexivity.
Qed.

Ltac break_inner H :=
  repeat (cbv beta iota in H;
          match type of H with
          | None = Some _ => discriminate H
          | context [match ?x with _ => _ end] =>
              lazymatch x with
              | context [match _ with _ => _ end] => fail
              | _ => destruct x eqn:?
              end
          end).

Lemma resume_client_frames (s s' : State) (r : result unit) :
  missing_key (API_KEY cfg) = false ->
  ws_endpoint_resume cfg s r = Some s' ->
  client_frames (trace s') = client_frames (trace s).
Proof.
  intros Hkey H.
  unfold ws_endpoint_resume, teardown, close, connect_established, with_handler in H.
  rewrite Hkey in H.
  break_inner H; apply some_inj in H; subst s'; cbn [trace];
    rewrite client_frames_app; cbn [client_frames flat_map app connect];
    rewrite ?app_nil_r; reflexivity.
Qed.

Lemma step_client_frames (s s' : State) (ev : Event) :
  missing_key (API_KEY cfg) = false ->
  step json_loads cfg s ev = Some s' ->
  client_frames (trace s') = client_frames (trace s) ++ relayed json_loads ev.
Proof.
  intros Hkey H. destruct ev as [r|r|r|r|r|[|]].
  - cbn [relayed]. rewrite app_nil_r. exact (resume_client_frames s s' r Hkey H).
  - cbn [step] in H. destruct (inbound s) as [[[|]| |]|]; try discriminate.
    destruct (session s) as [sess|]; [|discriminate].
    pose proof (received_writes sess r) as Hw.
    destruct (client_to_gemini_received json_loads sess r) as [st acts].
    apply some_inj in H. subst s'. cbn [trace with_inbound snd relayed] in *.
    now rewrite client_frames_app, Hw.
  - cbn [step] in H. destruct (inbound s) as [[[|]| |]|]; try discriminate.
    apply some_inj in H. subst s'. cbn [trace with_inbound relayed].
    now rewrite !app_nil_r.
  - cbn [step] in H. destruct (outbound s) as [[[|]| |]|]; try discriminate.
    destruct (item_writes r) as [_ Hw].
    destruct (gemini_to_client_item json_loads r) as [st acts].
    apply some_inj in H. subst s'. cbn [trace with_outbound snd] in *.
    now rewrite client_frames_app, Hw.
  - cbn [step] in H. destruct (outbound s) as [[[|]| |]|]; try discriminate.
    apply some_inj in H. subst s'. cbn [trace with_outbound relayed].
    now rewrite !app_nil_r.
  - cbn [step] in H. destruct (inbound s) as [[[|]| |]|]; try discriminate.
    apply some_inj in H. subst s'. cbn [trace with_inbound relayed].
    now rewrite !app_nil_r.
  - cbn [step] in H. destruct (outbound s) as [[[|]| |]|]; try discriminate.
    apply some_inj in H. subst s'. cbn [trace with_outbound relayed].
    now rewrite !app_nil_r.
Qed.

Lemma exec_client_frames (evs : list Event) :
  missing_key (API_KEY cfg) = false ->
  forall s s',
    exec json_loads cfg s evs = Some s' ->
    client_frames (trace s') = client_frames (trace s) ++ flat_map (relayed json_loads) evs.
Proof.
  intros Hkey. induction evs as [|ev rest IH]; intros s s' H; cbn [exec] in H.
  - apply some_inj in H. subst s'. cbn. now rewrite app_nil_r.
  - destruct (step json_loads cfg s ev) as [s1|] eqn:Hstep; [|discriminate].
    rewrite (IH s1 s' H), (step_client_frames s s1 ev Hkey Hstep).
    cbn [flat_map]. now rewrite app_assoc.
Qed.

(** X1: with a credential, what the client is sent in a run is the envelope
    of each upstream message that decoded, one for one and in the order of
    arrival, and nothing else. *)
Theorem envelopes_in_arrival_order (evs : list Event) (s : State) :
  missing_key (API_KEY cfg) = false ->
  exec json_loads cfg ws_endpoint evs = Some s ->
  client_frames (trace s) = flat_map (relayed json_loads) evs.
Proof.
  intros Hkey Hrun. exact (exec_client_frames evs Hkey ws_endpoint s Hrun).
Qed.

Lemma shape_client_closes (s : State) :
  missing_key (API_KEY cfg) = false -> Shape cfg s -> client_closes (trace s) = 0.
Proof.
  intros Hkey Hs. destruct Hs; try congruence; cbn [trace]; try reflexivity.
  - rewrite client_closes_app, (pump_no_client_close acts) by assumption. reflexivity.
  - rewrite !client_closes_app, (pump_no_client_close acts) by assumption. reflexivity.
Qed.

(** X2: with a credential, the endpoint never calls [websocket.close()],
    whether it returns or raises, and never sends the error frame. *)
Theorem client_never_closed_with_key (evs : list Event) (s : State) :
  missing_key (API_KEY cfg) = false ->
  exec json_loads cfg ws_endpoint evs = Some s ->
  client_closes (trace s) = 0 /\
  ~ In (ClientSendJson (JObj [("error", JStr "Missing GOOGLE_API_KEY")])) (trace s).
Proof.
  intros Hkey Hrun. pose proof (run_shape evs s Hrun) as Hs.
  split; [now apply shape_client_closes|].
  intros Hin.
  assert (Hpump : forall acts, Forall pump_action acts ->
                               ~ In (ClientSendJson error_frame) acts).
  { intros acts Ha Hi. rewrite Forall_forall in Ha. specialize (Ha _ Hi).
    inversion Ha. }
  destruct Hs; try congruence; cbn [trace] in Hin.
  - destruct Hin as [Hin|[]]. discriminate.
  - destruct Hin as [Hin|[Hin|[]]]; discriminate.
  - destruct Hin as [Hin|[Hin|[Hin|[]]]]; discriminate.
  - apply in_app_or in Hin. destruct Hin as [Hin|Hin]; [|now apply (Hpump acts)].
    destruct Hin as [Hin|[Hin|[Hin|[Hin|[Hin|[]]]]]]; discriminate.
  - apply in_app_or in Hin. destruct Hin as [Hin|Hin].
    + apply in_app_or in Hin. destruct Hin as [Hin|Hin]; [|now apply (Hpump acts)].
      destruct Hin as [Hin|[Hin|[Hin|[Hin|[Hin|[]]]]]]; discriminate.
    + destruct Hin as [Hin|[Hin|[Hin|[]]]]; discriminate.
Qed.


(** *** The frames written upstream *)

Lemma frame_kinds (s : State) (frame : string) :
  Shape cfg s -> In (UpstreamSend frame) (trace s) ->
  frame = dumps (setup_message (fresh_session cfg))
  \/ (exists text, frame = dumps (user_text_event text))
  \/ (exists pcm16, frame = dumps (user_audio_event pcm16)).
Proof.
  intros Hs Hin.
  assert (Hpump : forall acts, Forall pump_action acts -> In (UpstreamSend frame) acts ->
            (exists text, frame = dumps (user_text_event text))
            \/ (exists pcm16, frame = dumps (user_audio_event pcm16))).
  { intros acts Ha Hi. rewrite Forall_forall in Ha. specialize (Ha _ Hi).
    inversion Ha; [left; now exists text|right; now exists pcm16]. }
  assert (Hactive : In (UpstreamSend frame) (active_trace cfg) ->
                    frame = dumps (setup_message (fresh_session cfg))).
  { intros [Hi|[Hi|[Hi|[Hi|[Hi|[]]]]]]; try discriminate. congruence. }
  destruct Hs; cbn [trace] in Hin.
  - destruct Hin as [Hin|[]]. discriminate.
  - destruct Hin as [Hin|[Hin|[]]]; discriminate.
  - destruct Hin as [Hin|[Hin|[Hin|[]]]]; discriminate.
  - destruct Hin as [Hin|[Hin|[]]]; discriminate.
  - destruct Hin as [Hin|[Hin|[Hin|[]]]]; try discriminate. left. congruence.
  - apply in_app_or in Hin. destruct Hin as [Hin|Hin]; [left; auto|right; eauto].
  - apply in_app_or in Hin. destruct Hin as [Hin|Hin].
    + apply in_app_or in Hin. destruct Hin as [Hin|Hin]; [left; auto|right; eauto].
    + destruct Hin as [Hin|[Hin|[Hin|[]]]]; discriminate.
Qed.

Lemma video_frame_distinct (jpg : list byte) :
  dumps (user_video_event jpg) <> dumps (setup_message (fresh_session cfg)) /\
  (forall text, dumps (user_video_event jpg) <> dumps (user_text_event text)) /\
  (forall pcm16, dumps (user_video_event jpg) <> dumps (user_audio_event pcm16)).
Proof.
  repeat split; intros; intro H; cbn in H; discriminate H.
Qed.

(** X3: every frame a run writes upstream is the setup frame or the frame
    of a text or of an audio event; [send_user_video] is never called: no run
    writes the frame of a video event. *)
Theorem no_video_frame (evs : list Event) (s : State) :
  exec json_loads cfg ws_endpoint evs = Some s ->
  (forall frame,
      In (UpstreamSend frame) (trace s) ->
      frame = dumps (setup_message (fresh_session cfg))
      \/ (exists text, frame = dumps (JObj [("input", JObj [("text", text)])]))
      \/ (exists pcm16, frame = dumps (user_audio_event pcm16))) /\
  (forall sess jpg a,
      send_user_video sess jpg = Ok a -> ~ In a (trace s)).
Proof.
  intros Hrun. apply run_shape in Hrun. split.
  - intros frame Hin. exact (frame_kinds s frame Hrun Hin).
  - intros sess jpg a Hsend Hin. unfold send_user_video, ws_send in Hsend.
    destruct (ws sess); [|discriminate]. injection Hsend as <-.
    destruct (video_frame_distinct jpg) as (Hsetup & Htext & Haudio).
    destruct (frame_kinds s _ Hrun Hin) as [H|[[text H]|[pcm16 H]]].
    + exact (Hsetup H).
    + exact (Htext text H).
    + exact (Haudio pcm16 H).
Qed.








(** *** One upstream connection *)

(** X5: a run opens at most one upstream connection, and the session keeps
    the credential and the model it was built with. *)
Theorem one_upstream_connection (evs : list Event) (s : State) :
  exec json_loads cfg ws_endpoint evs = Some s ->
  List.length (upstream_connects (trace s)) <= 1 /\
  (forall sess,
      session s = Some sess ->
      api_key sess = key_of (API_KEY cfg) /\ model sess = MODEL_ID cfg /\
      upstream_connects (trace s) = [(connect_url sess, max_size)]).
Proof.
  intros Hrun. apply run_shape in Hrun. split.
  - destruct (shape_connects s Hrun) as [->|[_ ->]]; cbn; lia.
  - intros sess Hsess.
    destruct (shape_connects s Hrun) as [Hnone|[_ Hone]].
    + exfalso. destruct Hrun; cbn [session trace] in *; try discriminate;
        rewrite ?upstream_connects_app, ?active_connects in Hnone; discriminate.
    + rewrite Hone.
      destruct Hrun; cbn [session] in Hsess; try discriminate;
        apply some_inj in Hsess; subst sess; repeat split.
Qed.

(** *** Exceptions *)

(** X6: if the endpoint raises [e], then [e] was raised by a call the
    handler itself awaited: an exception of a pump, whatever it is, never
    leaves its task. *)
Theorem pump_errors_never_escape (evs : list Event) (s : State) (e : exn) :
  exec json_loads cfg ws_endpoint evs = Some s ->
  handler s = HRaised e ->
  In (Handler (Raise e)) evs.
Proof.
  intros Hrun He.
  destruct (exec_raised evs ws_endpoint s e Hrun He) as [Habs|Hin];
    [discriminate|exact Hin].
Qed.

(** *** After the teardown *)

Lemma step_after_teardown (s s' : State) (ev : Event) :
  Shape cfg s -> handler s = AtClose \/ ended (handler s) ->
  step json_loads cfg s ev = Some s' ->
  trace s' = trace s /\ (handler s' = AtClose \/ ended (handler s')).
Proof.
  intros Hs Hpc H.
  destruct Hs as [pc Hp|pc Hk Hp|pc Hk Hp|pc Hk Hp|pc Hk Hp|i o acts Hk Hi Ho Ha
                 |pc i o acts Hk Hp Hi Ho Ha];
    cbn [handler] in Hpc.
  1-5: destruct Hpc as [->|Hend]; [split_pc; discriminate|];
       rewrite ended_idle in H by (auto; exact Hend); discriminate.
  - destruct Hpc as [Hpc|[Hpc|[e Hpc]]]; discriminate.
  - destruct ev as [r|r|r|r|r|[|]]; cbn [step inbound outbound] in H.
    + unfold ws_endpoint_resume, with_handler in H.
      cbn [handler session inbound outbound trace] in H.
      split_pc; try discriminate.
      destruct r as [u|e]; apply some_inj in H; subst s'; cbn [trace handler];
        rewrite app_nil_r; (split; [reflexivity|right]); unfold ended; eauto.
    + destruct i as [[|]| |]; try discriminate; contradiction.
    + destruct i as [[|]| |]; try discriminate; contradiction.
    + destruct o as [[|]| |]; try discriminate; contradiction.
    + destruct o as [[|]| |]; try discriminate; contradiction.
    + destruct i as [[|]| |]; try discriminate.
      apply some_inj in H. subst s'. cbn [trace handler with_inbound].
      rewrite app_nil_r. split; [reflexivity|exact Hpc].
    + destruct o as [[|]| |]; try discriminate.
      apply some_inj in H. subst s'. cbn [trace handler with_outbound].
      rewrite app_nil_r. split; [reflexivity|exact Hpc].
Qed.

Lemma exec_after_teardown (evs : list Event) :
  forall s s',
    Shape cfg s -> handler s = AtClose \/ ended (handler s) ->
    exec json_loads cfg s evs = Some s' -> trace s' = trace s.
Proof.
  induction evs as [|ev rest IH]; intros s s' Hs Hpc H; cbn [exec] in H.
  - apply some_inj in H. now subst.
  - destruct (step json_loads cfg s ev) as [s1|] eqn:Hstep; [|discriminate].
    destruct (step_after_teardown s s1 ev Hs Hpc Hstep) as [Htr Hpc1].
    rewrite (IH s1 s' (step_shape s s1 ev Hs Hstep) Hpc1 H). exact Htr.
Qed.

(** X7: once the handler has asked the tasks to cancel and the session to
    close, or has ended, nothing more is asked of either peer: a pump that
    was asked to cancel abandons the call it was suspended at. *)
Theorem no_io_after_teardown (before later : list Event) (s s' : State) :
  exec json_loads cfg ws_endpoint before = Some s ->
  handler s = AtClose \/ ended (handler s) ->
  exec json_loads cfg s later = Some s' ->
  trace s' = trace s.
Proof.
  intros Hrun Hpc Hlater.
  exact (exec_after_teardown later s s' (run_shape before s Hrun) Hpc Hlater).
Qed.

(** X8: if the write of the setup frame fails, the endpoint raises and the
    transport that [connect] has just opened is never closed. *)
Theorem setup_failure_leaves_upstream_open (e : exn) (evs : list Event) (s : State) :
  missing_key (API_KEY cfg) = false ->
  exec json_loads cfg ws_endpoint
    (Handler (Ok tt) :: Handler (Ok tt) :: Handler (Raise e) :: evs) = Some s ->
  evs = [] /\ handler s = HRaised e /\
  (exists sess, session s = Some sess /\ ws sess = Some TransportOpen) /\
  upstream_frames (trace s) = [dumps (setup_message (fresh_session cfg))] /\
  upstream_closes (trace s) = 0.
Proof.
  intros Hkey Hrun. cbn [exec] in Hrun.
  rewrite (accept_with_key tt Hkey), handshake_done in Hrun.
  change (step json_loads cfg (setting_up cfg) (Handler (Raise e)))
    with (Some (with_handler (setting_up cfg) (HRaised e) [])) in Hrun.
  apply ended_idle_run in Hrun; [|right; now exists e|reflexivity..].
  destruct Hrun as [-> ->]. repeat split.
  exists (open_session cfg). split; reflexivity.
Qed.

(** *** How a pump ends *)

(** X9: when the client disconnects, [client_to_gemini] returns, with no
    exception and nothing written; the handler then asks both tasks to
    cancel, closes the upstream session and returns. *)
Theorem client_disconnect_ends_relay (evs : list Event) (s : State) :
  exec json_loads cfg ws_endpoint evs = Some s ->
  inbound s = Some (Pending InReceive) ->
  exists s1 s2 s3,
    step json_loads cfg s (ClientFrame (Raise WebSocketDisconnect)) = Some s1 /\
    inbound s1 = Some (Finished Returned) /\ trace s1 = trace s /\
    step json_loads cfg s1 (Handler (Ok tt)) = Some s2 /\
    outbound s2 = option_map cancel (outbound s) /\
    trace s2 = trace s ++ [CancelTask ClientToGemini; CancelTask GeminiToClient;
                           UpstreamClose] /\
    step json_loads cfg s2 (Handler (Ok tt)) = Some s3 /\
    handler s3 = HReturned /\ trace s3 = trace s2.
Proof.
  intros Hrun Hin. apply run_shape in Hrun.
  destruct (shape_pending_inbound s InReceive Hrun Hin) as (o & acts & -> & Ha).
  exists (active cfg (Finished Returned) o acts),
         (closing cfg AtClose (Finished Returned) (cancel o) acts),
         (closing cfg HReturned (Finished Returned) (cancel o) acts).
  split.
  { rewrite frame_step. unfold with_inbound, active.
    cbn [client_to_gemini_received except_disconnect fst snd handler session inbound
         outbound trace].
    now rewrite app_nil_r. }
  split; [reflexivity|]. split; [reflexivity|].
  split; [now apply (wait_returns (Finished Returned) o acts tt)|].
  split; [reflexivity|]. split; [reflexivity|].
  split; [apply close_returns|]. split; reflexivity.
Qed.

(** X10: when the upstream stream ends or raises, or gives a message that
    is no JSON, [gemini_to_client] ends without sending an envelope; the
    handler then asks both tasks to cancel, closes the upstream session and
    returns. *)
Theorem upstream_end_ends_relay (evs : list Event) (s : State) (item : StreamItem) :
  exec json_loads cfg ws_endpoint evs = Some s ->
  outbound s = Some (Pending OutNext) ->
  (forall msg, item = Message msg -> json_loads msg = None) ->
  exists s1 s2 s3,
    step json_loads cfg s (UpstreamItem item) = Some s1 /\
    outbound s1 = Some (Finished (stream_end_outcome item)) /\ trace s1 = trace s /\
    step json_loads cfg s1 (Handler (Ok tt)) = Some s2 /\
    inbound s2 = option_map cancel (inbound s) /\
    trace s2 = trace s ++ [CancelTask ClientToGemini; CancelTask GeminiToClient;
                           UpstreamClose] /\
    step json_loads cfg s2 (Handler (Ok tt)) = Some s3 /\
    handler s3 = HReturned /\ trace s3 = trace s2.
Proof.
  intros Hrun Hout Hbad. apply run_shape in Hrun.
  destruct (shape_pending_outbound s OutNext Hrun Hout) as (i & acts & -> & Ha).
  exists (active cfg i (Finished (stream_end_outcome item)) acts),
         (closing cfg AtClose (cancel i) (Finished (stream_end_outcome item)) acts),
         (closing cfg HReturned (cancel i) (Finished (stream_end_outcome item)) acts).
  split.
  { cbn [step outbound active]. unfold gemini_to_client_item, loads, with_outbound.
    destruct item as [msg| |e]; [rewrite (Hbad msg eq_refl)|..];
      cbn [stream_end_outcome handler session inbound outbound trace];
      now rewrite app_nil_r. }
  split; [reflexivity|]. split; [reflexivity|].
  split.
  { apply (wait_returns i (Finished (stream_end_outcome item)) acts tt).
    cbn [is_finished]. apply orb_true_r. }
  split; [reflexivity|]. split; [reflexivity|].
  split; [apply close_returns|]. split; reflexivity.
Qed.

(** X11: when a write to the upstream transport fails in
    [client_to_gemini], the task ends with that error, the frame is not
    written again, and the handler tears down and returns; when the write
    succeeds the pump is back at [receive_text]. *)
Theorem upstream_write_error_ends_relay (evs : list Event) (s : State) (e : exn) :
  exec json_loads cfg ws_endpoint evs = Some s ->
  inbound s = Some (Pending InSend) ->
  e <> WebSocketDisconnect ->
  (exists s0,
      step json_loads cfg s (UpstreamSent (Ok tt)) = Some s0 /\
      inbound s0 = Some (Pending InReceive) /\ trace s0 = trace s) /\
  exists s1 s2 s3,
    step json_loads cfg s (UpstreamSent (Raise e)) = Some s1 /\
    inbound s1 = Some (Finished (Raised e)) /\ trace s1 = trace s /\
    step json_loads cfg s1 (Handler (Ok tt)) = Some s2 /\
    trace s2 = trace s ++ [CancelTask ClientToGemini; CancelTask GeminiToClient;
                           UpstreamClose] /\
    step json_loads cfg s2 (Handler (Ok tt)) = Some s3 /\
    handler s3 = HReturned.
Proof.
  intros Hrun Hin He. apply run_shape in Hrun.
  destruct (shape_pending_inbound s InSend Hrun Hin) as (o & acts & -> & Ha).
  assert (Hexc : except_disconnect e = Raised e)
    by (destruct e; try reflexivity; now contradiction He).
  split.
  { exists (active cfg (Pending InReceive) o acts).
    split; [|split; reflexivity].
    cbn [step inbound active]. unfold with_inbound.
    cbn [client_to_gemini_sent handler session inbound outbound trace].
    now rewrite app_nil_r. }
  exists (active cfg (Finished (Raised e)) o acts),
         (closing cfg AtClose (Finished (Raised e)) (cancel o) acts),
         (closing cfg HReturned (Finished (Raised e)) (cancel o) acts).
  split.
  { cbn [step inbound active]. unfold with_inbound.
    cbn [client_to_gemini_sent handler session inbound outbound trace].
    now rewrite Hexc, app_nil_r. }
  split; [reflexivity|]. split; [reflexivity|].
  split; [now apply (wait_returns (Finished (Raised e)) o acts tt)|].
  split; [reflexivity|]. split; [apply close_returns|reflexivity].
Qed.

Lemma b64decode_value_raises (v : json) (e : exn) :
  b64decode_value v = Raise e ->
  e = TypeError \/ e = ValueError \/ e = BinasciiError.
Proof.
  destruct v; cbn [b64decode_value]; try (intros H; left; congruence).
  intros H. right. exact (Base64Facts.b64decode_raises s e H).
Qed.

(** X12: an [audio] frame whose [pcm16] does not decode (it is no string, it
    is not ASCII, or its padding or length is wrong) writes nothing
    upstream: [client_to_gemini] ends with a [TypeError], a [ValueError] or a
    [binascii.Error], and the handler tears the session down. *)
Theorem undecodable_audio_tears_down (evs : list Event) (s : State) (msg : string)
  (data v : json) (e : exn) :
  exec json_loads cfg ws_endpoint evs = Some s ->
  inbound s = Some (Pending InReceive) ->
  json_loads msg = Some data ->
  subscript data "type" = Ok (JStr "audio") ->
  subscript data "pcm16" = Ok v ->
  b64decode_value v = Raise e ->
  (e = TypeError \/ e = ValueError \/ e = BinasciiError) /\
  exists s1 s2,
    step json_loads cfg s (ClientFrame (Ok msg)) = Some s1 /\
    inbound s1 = Some (Finished (Raised e)) /\ trace s1 = trace s /\
    step json_loads cfg s1 (Handler (Ok tt)) = Some s2 /\
    handler s2 = AtClose /\
    trace s2 = trace s ++ [CancelTask ClientToGemini; CancelTask GeminiToClient;
                           UpstreamClose].
Proof.
  intros Hrun Hin Hloads Hty Hpcm Hdec. apply run_shape in Hrun.
  destruct (shape_pending_inbound s InReceive Hrun Hin) as (o & acts & -> & Ha).
  pose proof (b64decode_value_raises v e Hdec) as Hkind.
  split; [exact Hkind|].
  assert (Hexc : except_disconnect e = Raised e)
    by (destruct Hkind as [->|[->| ->]]; reflexivity).
  exists (active cfg (Finished (Raised e)) o acts),
         (closing cfg AtClose (Finished (Raised e)) (cancel o) acts).
  split.
  { rewrite frame_step.
    unfold client_to_gemini_received, client_to_gemini_dispatch, loads.
    rewrite Hloads. cbn [bind]. rewrite Hty. cbn [bind py_eq_str].
    change (String.eqb "audio" "text") with false.
    rewrite String.eqb_refl, Hpcm. cbn [bind]. rewrite Hdec. cbn [bind].
    rewrite Hexc. unfold with_inbound, active.
    cbn [fst snd handler session inbound outbound trace]. now rewrite app_nil_r. }
  split; [reflexivity|]. split; [reflexivity|].
  split; [now apply (wait_returns (Finished (Raised e)) o acts tt)|].
  split; reflexivity.
Qed.

End RelayFacts.

(** ** Concrete runs: counterexamples and witnesses *)

Import Samples.
Local Open Scope list_scope.

(** The upstream stream ends, the handler tears down and returns while the
    inbound task has only been asked to cancel. *)
Lemma relay_returns_before_pump_ends :
  ~ (forall s,
        exec sample_loads with_key ws_endpoint
          (startup ++ [UpstreamItem StopAsyncIteration; ok; ok]) = Some s ->
        handler s = HReturned ->
        is_finished (inbound s) = true /\ is_finished (outbound s) = true).
Proof.
  intros H.
  destruct (H (closing with_key HReturned CancelRequested (Finished Returned) [])
              eq_refl eq_refl) as [Hin _].
  discriminate Hin.
Qed.

Lemma teardown_cancels_and_closes_once_witness :
  exec sample_loads with_key ws_endpoint
    (startup ++ [ClientFrame (Raise WebSocketDisconnect); UpstreamItem StopAsyncIteration])
  = Some (active with_key (Finished Returned) (Finished Returned) []) /\
  upstream_closes (trace (active with_key (Finished Returned) (Finished Returned) [])) <= 1 /\
  exists s',
    step sample_loads with_key
      (active with_key (Finished Returned) (Finished Returned) []) ok = Some s' /\
    handler s' = AtClose /\ upstream_closes (trace s') = 1.
Proof.
  pose proof (teardown_cancels_and_closes_once sample_loads with_key
    (startup ++ [ClientFrame (Raise WebSocketDisconnect); UpstreamItem StopAsyncIteration])
    (active with_key (Finished Returned) (Finished Returned) []) eq_refl)
    as (Hle & Hwait & _).
  split; [reflexivity|]. split; [exact Hle|].
  destruct (proj2 (Hwait eq_refl) eq_refl) as (s' & Hstep & Hpc & _ & _ & _ & _ & _ & Hone).
  exists s'. auto.
Defined.

Lemma missing_key_error_then_close_witness :
  missing_key (API_KEY without_key) = true /\
  exec sample_loads without_key ws_endpoint (ok :: [ok; ok]) =
    Some (run without_key [ok; ok; ok]) /\
  handler (run without_key [ok; ok; ok]) = HReturned /\
  trace (run without_key [ok; ok; ok]) =
    [ClientAccept;
     ClientSendJson (JObj [("error", JStr "Missing GOOGLE_API_KEY")]);
     ClientClose].
Proof.
  split; [reflexivity|]. split; [reflexivity|]. split; [reflexivity|].
  destruct (missing_key_error_then_close sample_loads without_key [ok; ok]
              (run without_key [ok; ok; ok]) eq_refl eq_refl)
    as (_ & _ & _ & _ & Hclosed).
  apply Hclosed. left. reflexivity.
Defined.

(** The handshake fails: the endpoint raises and has not closed the client
    connection. *)
Lemma connect_failure_leaves_client_open :
  ~ (forall s,
        exec sample_loads with_key ws_endpoint
          [ok; Handler (Raise (LibraryError "InvalidStatusCode"))] = Some s ->
        client_frames (trace s) = [] /\ 1 <= client_closes (trace s)).
Proof.
  intros H.
  destruct (H (run with_key [ok; Handler (Raise (LibraryError "InvalidStatusCode"))])
              eq_refl) as [_ Hclosed].
  vm_compute in Hclosed. lia.
Qed.

Lemma connect_failure_raises_witness :
  missing_key (API_KEY with_key) = false /\
  exec sample_loads with_key ws_endpoint
    (ok :: Handler (Raise (LibraryError "InvalidStatusCode")) :: []) =
    Some (run with_key [ok; Handler (Raise (LibraryError "InvalidStatusCode"))]) /\
  handler (run with_key [ok; Handler (Raise (LibraryError "InvalidStatusCode"))]) =
    HRaised (LibraryError "InvalidStatusCode") /\
  client_closes
    (trace (run with_key [ok; Handler (Raise (LibraryError "InvalidStatusCode"))])) = 0.
Proof.
  split; [reflexivity|]. split; [reflexivity|].
  destruct (connect_failure_raises sample_loads with_key
              (LibraryError "InvalidStatusCode") []
              (run with_key [ok; Handler (Raise (LibraryError "InvalidStatusCode"))])
              eq_refl (or_introl eq_refl))
    as (_ & Hpc & _ & _ & _ & Hopen).
  split; [exact Hpc|exact Hopen].
Defined.

Lemma connect_url_limit_and_setup_first_witness :
  exec sample_loads with_key ws_endpoint [ok; ok] = Some (setting_up with_key) /\
  (exists key,
      API_KEY with_key = Some key /\
      (GEMINI_LIVE_WS ++ "?key=secret")%string = (GEMINI_LIVE_WS ++ "?key=" ++ key)%string /\
      (32 * 2 ^ 20 <= 33554432)%Z) /\
  exists later,
    upstream_frames (trace (setting_up with_key)) =
    dumps (JObj [("setup", JObj [
             ("model", JStr "models/gemini-2.5-flash");
             ("response", JObj [
                ("modalities", JArr [JStr "AUDIO"; JStr "TEXT"]);
                ("instructions", JStr "You are a helpful assistant.")])])])
    :: later.
Proof.
  destruct (connect_url_limit_and_setup_first sample_loads with_key [ok; ok]
              (setting_up with_key) eq_refl) as [Hurl Hsetup].
  split; [reflexivity|]. split.
  - apply (Hurl (GEMINI_LIVE_WS ++ "?key=secret")%string 33554432%Z).
    right. left. reflexivity.
  - apply (Hsetup (open_session with_key)); [reflexivity|discriminate].
Defined.

Lemma audio_frame_forwarded_witness :
  exec sample_loads with_key ws_endpoint startup =
    Some (active with_key (Pending InReceive) (Pending OutNext) []) /\
  sample_loads (dumps audio_doc) = Some audio_doc /\
  Base64.b64decode "AAH/EA==" = Ok [x00; x01; xff; x10] /\
  exists sess s',
    session (active with_key (Pending InReceive) (Pending OutNext) []) = Some sess /\
    step sample_loads with_key (active with_key (Pending InReceive) (Pending OutNext) [])
      (ClientFrame (Ok (dumps audio_doc))) = Some s' /\
    upstream_frames (trace s') =
      [dumps (setup_message (fresh_session with_key));
       dumps (JObj [("input", JObj [("audio", JObj [
                ("mime_type", JStr "audio/pcm;rate=16000");
                ("data", JStr "AAH/EA==")])])])].
Proof.
  split; [reflexivity|]. split; [reflexivity|]. split; [reflexivity|].
  destruct (audio_frame_forwarded sample_loads with_key startup
              (active with_key (Pending InReceive) (Pending OutNext) [])
              (dumps audio_doc) "AAH/EA==" audio_doc [x00; x01; xff; x10]
              eq_refl eq_refl eq_refl eq_refl eq_refl eq_refl)
    as (sess & s' & Hsess & _ & Hstep & _ & Htrace & _).
  exists sess, s'. split; [exact Hsess|]. split; [exact Hstep|].
  rewrite Htrace. reflexivity.
Defined.

Lemma text_and_events_relayed_witness :
  exec sample_loads with_key ws_endpoint startup =
    Some (active with_key (Pending InReceive) (Pending OutNext) []) /\
  (exists s',
      step sample_loads with_key (active with_key (Pending InReceive) (Pending OutNext) [])
        (ClientFrame (Ok (dumps text_doc))) = Some s' /\
      trace s' = active_trace with_key ++
        [UpstreamSend (dumps (JObj [("input", JObj [("text", JStr "hello")])]))]) /\
  (exists s',
      step sample_loads with_key (active with_key (Pending InReceive) (Pending OutNext) [])
        (UpstreamItem (Message (dumps hi_doc))) = Some s' /\
      trace s' = active_trace with_key ++
        [ClientSendJson (JObj [("type", JStr "gemini");
                               ("data", JObj [("output", JObj [("text", JStr "hi")])])])]).
Proof.
  destruct (text_and_events_relayed sample_loads with_key startup
              (active with_key (Pending InReceive) (Pending OutNext) []) eq_refl)
    as [Htext Hevt].
  split; [reflexivity|]. split.
  - destruct (Htext (dumps text_doc) text_doc (JStr "hello")
                eq_refl eq_refl eq_refl eq_refl) as (s' & Hstep & _ & Htrace).
    exists s'. split; [exact Hstep|]. rewrite Htrace. reflexivity.
  - destruct (Hevt (dumps hi_doc) hi_doc eq_refl eq_refl) as (s' & Hstep & _ & Htrace).
    exists s'. split; [exact Hstep|]. rewrite Htrace. reflexivity.
Defined.

Lemma outbound_send_error_swallowed_witness :
  exec sample_loads with_key ws_endpoint
    (startup ++ [UpstreamItem (Message (dumps hi_doc));
                 ClientFrame (Raise WebSocketDisconnect)]) =
    Some (run with_key (startup ++ [UpstreamItem (Message (dumps hi_doc));
                                    ClientFrame (Raise WebSocketDisconnect)])) /\
  outbound (run with_key (startup ++ [UpstreamItem (Message (dumps hi_doc));
                                      ClientFrame (Raise WebSocketDisconnect)])) =
    Some (Pending OutSend) /\
  exists s1 s2 s3,
    step sample_loads with_key
      (run with_key (startup ++ [UpstreamItem (Message (dumps hi_doc));
                                 ClientFrame (Raise WebSocketDisconnect)]))
      (ClientSent (Raise (LibraryError "RuntimeError"))) = Some s1 /\
    handler s1 = AtWait /\
    step sample_loads with_key s1 ok = Some s2 /\
    step sample_loads with_key s2 ok = Some s3 /\
    handler s3 = HReturned.
Proof.
  split; [reflexivity|]. split; [reflexivity|].
  destruct (outbound_send_error_swallowed sample_loads with_key
              (startup ++ [UpstreamItem (Message (dumps hi_doc));
                           ClientFrame (Raise WebSocketDisconnect)])
              (run with_key (startup ++ [UpstreamItem (Message (dumps hi_doc));
                                         ClientFrame (Raise WebSocketDisconnect)]))
              (LibraryError "RuntimeError") eq_refl eq_refl)
    as (s1 & s2 & s3 & H1 & Hpc1 & _ & _ & _ & H2 & _ & H3 & Hpc3 & _).
  exists s1, s2, s3. auto.
Defined.

Lemma unknown_type_dropped_witness :
  exec sample_loads with_key ws_endpoint startup =
    Some (active with_key (Pending InReceive) (Pending OutNext) []) /\
  sample_loads (dumps ping_doc) = Some ping_doc /\
  step sample_loads with_key (active with_key (Pending InReceive) (Pending OutNext) [])
    (ClientFrame (Ok (dumps ping_doc))) =
  Some (active with_key (Pending InReceive) (Pending OutNext) []).
Proof.
  split; [reflexivity|]. split; [reflexivity|].
  apply (unknown_type_dropped sample_loads with_key startup
           (active with_key (Pending InReceive) (Pending OutNext) [])
           (dumps ping_doc) ping_doc (JStr "ping") eq_refl eq_refl eq_refl eq_refl);
    discriminate.
Defined.

Lemma malformed_frame_tears_down_witness :
  exec sample_loads with_key ws_endpoint startup =
    Some (active with_key (Pending InReceive) (Pending OutNext) []) /\
  malformed sample_loads "not json" /\
  malformed sample_loads (dumps untyped_doc) /\
  exists e s1 s2,
    step sample_loads with_key (active with_key (Pending InReceive) (Pending OutNext) [])
      (ClientFrame (Ok (dumps untyped_doc))) = Some s1 /\
    inbound s1 = Some (Finished (Raised e)) /\
    step sample_loads with_key s1 ok = Some s2 /\
    outbound s2 = Some CancelRequested /\
    upstream_closes (trace s2) = 1.
Proof.
  assert (Hjunk : malformed sample_loads "not json") by (left; reflexivity).
  assert (Hkey : malformed sample_loads (dumps untyped_doc)).
  { right. exists untyped_doc. split; [reflexivity|]. left. reflexivity. }
  split; [reflexivity|]. split; [exact Hjunk|]. split; [exact Hkey|].
  destruct (malformed_frame_tears_down sample_loads with_key startup
              (active with_key (Pending InReceive) (Pending OutNext) [])
              (dumps untyped_doc) eq_refl eq_refl Hkey)
    as (e & s1 & s2 & H1 & Hin & _ & _ & _ & H2 & _ & Hout & _ & Htrace).
  exists e, s1, s2. split; [exact H1|]. split; [exact Hin|]. split; [exact H2|].
  split; [exact Hout|]. rewrite Htrace. reflexivity.
Defined.

(** ** Concrete runs for the further properties *)

Import MoreSamples.

Lemma envelopes_in_arrival_order_witness :
  exec sample_loads with_key ws_endpoint (startup ++ session_events) =
    Some (run with_key (startup ++ session_events)) /\
  client_frames (trace (run with_key (startup ++ session_events))) =
    [JObj [("type", JStr "gemini"); ("data", hi_doc)]].
Proof.
  split; [reflexivity|].
  exact (envelopes_in_arrival_order sample_loads with_key (startup ++ session_events)
           (run with_key (startup ++ session_events)) eq_refl eq_refl).
Defined.

Lemma client_never_closed_with_key_witness :
  handler (run with_key (startup ++ session_events)) = HReturned /\
  client_closes (trace (run with_key (startup ++ session_events))) = 0.
Proof.
  split; [reflexivity|].
  exact (proj1 (client_never_closed_with_key sample_loads with_key
                  (startup ++ session_events)
                  (run with_key (startup ++ session_events)) eq_refl eq_refl)).
Defined.

Lemma no_video_frame_witness :
  send_user_video (open_session with_key) [x00; x01] =
    Ok (UpstreamSend (dumps (user_video_event [x00; x01]))) /\
  ~ In (UpstreamSend (dumps (user_video_event [x00; x01])))
       (trace (run with_key (startup ++ session_events))).
Proof.
  split; [reflexivity|].
  exact (proj2 (no_video_frame sample_loads with_key (startup ++ session_events)
                  (run with_key (startup ++ session_events)) eq_refl)
           (open_session with_key) [x00; x01] _ eq_refl).
Defined.


Lemma one_upstream_connection_witness :
  List.length (upstream_connects (trace (run with_key (startup ++ session_events)))) <= 1 /\
  upstream_connects (trace (run with_key (startup ++ session_events))) =
    [((GEMINI_LIVE_WS ++ "?key=secret")%string, 33554432%Z)].
Proof.
  destruct (one_upstream_connection sample_loads with_key (startup ++ session_events)
              (run with_key (startup ++ session_events)) eq_refl) as [Hle Hsess].
  split; [exact Hle|].
  exact (proj2 (proj2 (Hsess (closed_session with_key) eq_refl))).
Defined.

Lemma pump_errors_never_escape_witness :
  handler (run with_key (startup ++ [ClientFrame (Ok "not json"); ok;
                                     Handler (Raise (LibraryError "ConnectionClosed"))])) =
    HRaised (LibraryError "ConnectionClosed") /\
  In (Handler (Raise (LibraryError "ConnectionClosed")))
     (startup ++ [ClientFrame (Ok "not json"); ok;
                  Handler (Raise (LibraryError "ConnectionClosed"))]).
Proof.
  split; [reflexivity|].
  exact (pump_errors_never_escape sample_loads with_key
           (startup ++ [ClientFrame (Ok "not json"); ok;
                        Handler (Raise (LibraryError "ConnectionClosed"))])
           (run with_key (startup ++ [ClientFrame (Ok "not json"); ok;
                                      Handler (Raise (LibraryError "ConnectionClosed"))]))
           (LibraryError "ConnectionClosed") eq_refl eq_refl).
Defined.

Lemma no_io_after_teardown_witness :
  handler (run with_key (startup ++ [UpstreamItem StopAsyncIteration; ok])) = AtClose /\
  trace (run with_key (startup ++ [UpstreamItem StopAsyncIteration; ok;
                                   CancelDelivered ClientToGemini; ok])) =
  trace (run with_key (startup ++ [UpstreamItem StopAsyncIteration; ok])).
Proof.
  split; [reflexivity|].
  exact (no_io_after_teardown sample_loads with_key
           (startup ++ [UpstreamItem StopAsyncIteration; ok])
           [CancelDelivered ClientToGemini; ok]
           (run with_key (startup ++ [UpstreamItem StopAsyncIteration; ok]))
           (run with_key (startup ++ [UpstreamItem StopAsyncIteration; ok;
                                      CancelDelivered ClientToGemini; ok]))
           eq_refl (or_introl eq_refl) eq_refl).
Defined.

Lemma setup_failure_leaves_upstream_open_witness :
  handler (run with_key [ok; ok; Handler (Raise (LibraryError "ConnectionClosed"))]) =
    HRaised (LibraryError "ConnectionClosed") /\
  upstream_closes
    (trace (run with_key [ok; ok; Handler (Raise (LibraryError "ConnectionClosed"))])) = 0.
Proof.
  destruct (setup_failure_leaves_upstream_open sample_loads with_key
              (LibraryError "ConnectionClosed") []
              (run with_key [ok; ok; Handler (Raise (LibraryError "ConnectionClosed"))])
              eq_refl eq_refl) as (_ & Hpc & _ & _ & Hopen).
  split; [exact Hpc|exact Hopen].
Defined.

Lemma client_disconnect_ends_relay_witness :
  exists s1 s2 s3,
    step sample_loads with_key (run with_key startup)
      (ClientFrame (Raise WebSocketDisconnect)) = Some s1 /\
    inbound s1 = Some (Finished Returned) /\
    step sample_loads with_key s1 ok = Some s2 /\
    step sample_loads with_key s2 ok = Some s3 /\
    handler s3 = HReturned.
Proof.
  destruct (client_disconnect_ends_relay sample_loads with_key startup
              (run with_key startup) eq_refl eq_refl)
    as (s1 & s2 & s3 & H1 & Hin & _ & H2 & _ & _ & H3 & Hpc & _).
  exists s1, s2, s3. auto.
Defined.

Lemma upstream_end_ends_relay_witness :
  exists s1 s2 s3,
    step sample_loads with_key (run with_key startup)
      (UpstreamItem (Message "not json")) = Some s1 /\
    outbound s1 = Some (Finished (Raised JSONDecodeError)) /\
    step sample_loads with_key s1 ok = Some s2 /\
    inbound s2 = Some CancelRequested /\
    step sample_loads with_key s2 ok = Some s3 /\
    handler s3 = HReturned.
Proof.
  assert (Hbad : forall msg, Message "not json" = Message msg -> sample_loads msg = None).
  { intros msg Heq. injection Heq as <-. reflexivity. }
  destruct (upstream_end_ends_relay sample_loads with_key startup
              (run with_key startup) (Message "not json") eq_refl eq_refl Hbad)
    as (s1 & s2 & s3 & H1 & Hout & _ & H2 & Hin & _ & H3 & Hpc & _).
  exists s1, s2, s3.
  split; [exact H1|]. split; [exact Hout|]. split; [exact H2|].
  split; [exact Hin|]. split; [exact H3|exact Hpc].
Defined.

Lemma upstream_write_error_ends_relay_witness :
  inbound (run with_key (startup ++ [ClientFrame (Ok (dumps text_doc))])) =
    Some (Pending InSend) /\
  exists s1 s2 s3,
    step sample_loads with_key
      (run with_key (startup ++ [ClientFrame (Ok (dumps text_doc))]))
      (UpstreamSent (Raise (LibraryError "ConnectionClosed"))) = Some s1 /\
    inbound s1 = Some (Finished (Raised (LibraryError "ConnectionClosed"))) /\
    step sample_loads with_key s1 ok = Some s2 /\
    step sample_loads with_key s2 ok = Some s3 /\
    handler s3 = HReturned.
Proof.
  split; [reflexivity|].
  assert (Hne : LibraryError "ConnectionClosed" <> WebSocketDisconnect)
    by (intros Heq; discriminate Heq).
  destruct (upstream_write_error_ends_relay sample_loads with_key
              (startup ++ [ClientFrame (Ok (dumps text_doc))])
              (run with_key (startup ++ [ClientFrame (Ok (dumps text_doc))]))
              (LibraryError "ConnectionClosed") eq_refl eq_refl Hne)
    as (_ & s1 & s2 & s3 & H1 & Hin & _ & H2 & _ & H3 & Hpc).
  exists s1, s2, s3. auto.
Defined.

Lemma undecodable_audio_tears_down_witness :
  b64decode_value (JStr "AAH/E") = Raise BinasciiError /\
  exists s1 s2,
    step more_loads with_key (more_run startup)
      (ClientFrame (Ok (dumps bad_audio_doc))) = Some s1 /\
    inbound s1 = Some (Finished (Raised BinasciiError)) /\
    step more_loads with_key s1 ok = Some s2 /\
    handler s2 = AtClose.
Proof.
  split; [reflexivity|].
  destruct (undecodable_audio_tears_down more_loads with_key startup (more_run startup)
              (dumps bad_audio_doc) bad_audio_doc (JStr "AAH/E") BinasciiError
              eq_refl eq_refl eq_refl eq_refl eq_refl eq_refl)
    as (_ & s1 & s2 & H1 & Hin & _ & H2 & Hpc & _).
  exists s1, s2. auto.
Defined.

Lemma b64decode_skips_other_characters_witness :
  Base64.is_ascii broken_base64 = true /\
  Base64.strip broken_base64 = Base64.b64encode [x00; x01; xff; x10] /\
  Base64.b64decode broken_base64 = Ok [x00; x01; xff; x10].
Proof.
  split; [reflexivity|]. split; [reflexivity|].
  exact (Base64Facts.b64decode_skips_other_characters broken_base64
           [x00; x01; xff; x10] eq_refl eq_refl).
Defined.
